(** * NFC_Door: credential store, admin flag and scan cycle of the door controller

    A shallow embedding of [NFC_Door.ino].  The sketch keeps its whole state in
    globals and in the EEPROM, so every routine is a function on [state]; the
    serial messages, LED modes, delays and motor commands it issues are
    collected in the field [out], newest first. *)

From Stdlib Require Import ZArith List Bool Lia String.
From coqutil Require Import Byte.
Import ListNotations.
Local Open Scope Z_scope.

(** Statements of the sketch run left to right: [st |> f |> g] is [f; g]. *)
Notation "x |> f" := (f x) (at level 45, left associativity, only parsing).

(** [for (int i = lo; i < lo + n; i++) body]: a loop without [break]. *)
Fixpoint for_ {St : Type} (n : nat) (i : Z) (body : Z -> St -> St) (s : St) : St :=
  match n with
  | O => s
  | S n' => for_ n' (i + 1) body (body i s)
  end.

(** ** Seven-byte arrays *)

(** [uint8_t x[7]]: the scanned UID, the UID read back from the EEPROM, the
    master entry and the null entry all have this shape. *)
Record uid7 : Type := UID {
  u0 : byte; u1 : byte; u2 : byte; u3 : byte; u4 : byte; u5 : byte; u6 : byte
}.

(** [x[i]] for [0 <= i < 7]. *)
Definition uid_get (x : uid7) (i : Z) : byte :=
  match i with
  | 0 => u0 x | 1 => u1 x | 2 => u2 x | 3 => u3 x
  | 4 => u4 x | 5 => u5 x | _ => u6 x
  end.

(** [x[i] = v] for [0 <= i < 7]. *)
Definition uid_set (x : uid7) (i : Z) (v : byte) : uid7 :=
  match i with
  | 0 => UID v (u1 x) (u2 x) (u3 x) (u4 x) (u5 x) (u6 x)
  | 1 => UID (u0 x) v (u2 x) (u3 x) (u4 x) (u5 x) (u6 x)
  | 2 => UID (u0 x) (u1 x) v (u3 x) (u4 x) (u5 x) (u6 x)
  | 3 => UID (u0 x) (u1 x) (u2 x) v (u4 x) (u5 x) (u6 x)
  | 4 => UID (u0 x) (u1 x) (u2 x) (u3 x) v (u5 x) (u6 x)
  | 5 => UID (u0 x) (u1 x) (u2 x) (u3 x) (u4 x) v (u6 x)
  | _ => UID (u0 x) (u1 x) (u2 x) (u3 x) (u4 x) (u5 x) v
  end.

Definition _masterUIDEntry : uid7 :=
  UID (byte.of_Z 240) (byte.of_Z 200) (byte.of_Z 160) (byte.of_Z 120)
      (byte.of_Z 80) (byte.of_Z 40) (byte.of_Z 0).

Definition _nullUIDEntry : uid7 :=
  UID (byte.of_Z 255) (byte.of_Z 255) (byte.of_Z 255) (byte.of_Z 255)
      (byte.of_Z 255) (byte.of_Z 255) (byte.of_Z 255).

(** The array filled with zeros, as [setup] leaves both buffers. *)
Definition zeroUID : uid7 :=
  UID (byte.of_Z 0) (byte.of_Z 0) (byte.of_Z 0) (byte.of_Z 0)
      (byte.of_Z 0) (byte.of_Z 0) (byte.of_Z 0).

(** ** The EEPROM, instrumented *)

(** One physical write: the cell, the byte it held and the byte stored. *)
Record write_event : Type := Wr { w_addr : Z; w_old : byte; w_new : byte }.

(** The Arduino EEPROM object.  [cells] gives the byte at each address;
    [written] lists the physical writes, newest first.  The device of the
    sketch has the cells 0..1023, the model a cell for every address; while
    the count byte is at most 145 no cell beyond 1023 is written (lemma
    [loop_writes_in_device] below). *)
Record eeprom : Type := Eeprom { cells : Z -> byte; written : list write_event }.

Module EEPROM.

Definition read (e : eeprom) (address : Z) : byte := cells e address.

Definition write (e : eeprom) (address : Z) (value : byte) : eeprom :=
  {| cells := fun a => if a =? address then value else cells e a;
     written := Wr address (cells e address) value :: written e |}.

End EEPROM.

(** Number of physical writes the cell [a] has received. *)
Definition writeCount (e : eeprom) (a : Z) : nat :=
  List.length (filter (fun w => w_addr w =? a) (written e)).

(** ** What the sketch emits *)

Inductive message : Type :=
| MasterEnter | MasterClear | FoundUnlock | FoundRemoved
| NotFoundDenied | EmptyDenied | CardSaved | OutOfSpace.

(** The text handed to [Serial.println] for each message. *)
Definition text (m : message) : string :=
  match m with
  | MasterEnter => "Master detected. Entering admin mode."
  | MasterClear => "Master detected. Admin mode already enabled, clearing database."
  | FoundUnlock => "Found in database. Unlocking door."
  | FoundRemoved => "Found in database. Removed entry."
  | NotFoundDenied => "Not found in database. Access denied!"
  | EmptyDenied => "Database empty. Access denied!"
  | CardSaved => "Not found in database. Card saved!"
  | OutOfSpace => "Out of space! All entries currently in use."
  end%string.

(** [SetLED n] is the call [setLEDMode(n)] (its colour table is wiring);
    [CardDetected x] is the "Card detected #: ..." line printed from the
    scanned buffer; [Motor d1 d2 en] is one setting of the two direction pins
    and the enable pin. *)
Inductive event : Type :=
| SetLED (pColourMode : Z)
| Println (m : message)
| CardDetected (x : uid7)
| Delay (ms : Z)
| Motor (direction1 direction2 : bool) (enable : Z).

(** ** Globals *)

(** [past_null i] is the byte of data memory at [_nullUIDEntry + i] for
    [i >= 7]: the clearing loop of [loop] indexes the 7-byte constant with
    every [i] below 1024, and the microcontroller answers such a read with
    whatever lies behind the array. *)
Record state : Type := State {
  _scannedUIDBuffer : uid7;
  _uidLength : byte;
  _entryCount : byte;
  _readUIDBuffer : uid7;
  _adminMode : bool;
  rom : eeprom;
  past_null : Z -> byte;
  out : list event
}.

Definition set_scanned (x : uid7) (st : state) : state :=
  State x (_uidLength st) (_entryCount st) (_readUIDBuffer st) (_adminMode st)
        (rom st) (past_null st) (out st).

Definition set_uidLength (n : byte) (st : state) : state :=
  State (_scannedUIDBuffer st) n (_entryCount st) (_readUIDBuffer st)
        (_adminMode st) (rom st) (past_null st) (out st).

Definition set_entryCount (n : byte) (st : state) : state :=
  State (_scannedUIDBuffer st) (_uidLength st) n (_readUIDBuffer st)
        (_adminMode st) (rom st) (past_null st) (out st).

Definition set_read (x : uid7) (st : state) : state :=
  State (_scannedUIDBuffer st) (_uidLength st) (_entryCount st) x
        (_adminMode st) (rom st) (past_null st) (out st).

Definition set_adminMode (b : bool) (st : state) : state :=
  State (_scannedUIDBuffer st) (_uidLength st) (_entryCount st)
        (_readUIDBuffer st) b (rom st) (past_null st) (out st).

Definition set_rom (e : eeprom) (st : state) : state :=
  State (_scannedUIDBuffer st) (_uidLength st) (_entryCount st)
        (_readUIDBuffer st) (_adminMode st) e (past_null st) (out st).

Definition emit (ev : event) (st : state) : state :=
  State (_scannedUIDBuffer st) (_uidLength st) (_entryCount st)
        (_readUIDBuffer st) (_adminMode st) (rom st) (past_null st)
        (ev :: out st).

(** A routine that works on the EEPROM alone, run in the sketch. *)
Definition on_rom (f : eeprom -> eeprom) (st : state) : state := set_rom (f (rom st)) st.

Definition setLEDMode (pColourMode : Z) : state -> state := emit (SetLED pColourMode).
Definition println (m : message) : state -> state := emit (Println m).
Definition delay (ms : Z) : state -> state := emit (Delay ms).

(** [_nullUIDEntry[i]] as the clearing loop reads it. *)
Definition nullUIDEntry_at (st : state) (i : Z) : byte :=
  if i <? 7 then uid_get _nullUIDEntry i else past_null st i.

(** ** Helper routines of the sketch *)

(** Lines 307-320: every index is compared, a mismatch clears the flag. *)
Definition checkUIDsMatch (pUIDArrayPointer1 pUIDArrayPointer2 : uid7) : bool :=
  for_ 7 0
    (fun i uidMatches =>
       if negb (Byte.eqb (uid_get pUIDArrayPointer1 i) (uid_get pUIDArrayPointer2 i))
       then false else uidMatches)
    true.

(** Lines 330-336.  The routine touches nothing but the EEPROM. *)
Definition eepromSafeWrite (pAddress : Z) (pWriteByte : byte) (e : eeprom) : eeprom :=
  if negb (Byte.eqb (EEPROM.read e pAddress) pWriteByte)
  then EEPROM.write e pAddress pWriteByte
  else e.

(** Lines 347-370. *)
Definition unlockDoor (st : state) : state :=
  st |> setLEDMode 3
     |> emit (Motor true false 1) |> delay 1250 |> emit (Motor false false 0)
     |> delay 500
     |> setLEDMode 1
     |> emit (Motor false true 1) |> delay 1250 |> emit (Motor false false 0).

(** Lines 169-172 and 390-393: the entry at [currentReadAddress] is copied
    into [_readUIDBuffer]. *)
Definition readEntry (currentReadAddress : Z) (st : state) : state :=
  for_ 7 0
    (fun i st =>
       set_read (uid_set (_readUIDBuffer st) i
                         (EEPROM.read (rom st) (currentReadAddress + i))) st)
    st.

(** Lines 397-400 and 417-420: the scanned buffer is written, byte by byte,
    to the seven cells that start at [entry * 7 + 1]. *)
Definition writeScanned (entry : Z) (st : state) : state :=
  for_ 7 0
    (fun i st =>
       on_rom (eepromSafeWrite (entry * 7 + 1 + i) (uid_get (_scannedUIDBuffer st) i)) st)
    st.

(** Lines 385-410: the search for a nulled entry.  [n] iterations are left,
    the loop variable is [currentEntry]; the result carries [recycledEntry]. *)
Fixpoint recycleLoop (n : nat) (currentEntry currentReadAddress : Z) (st : state)
  : bool * state :=
  match n with
  | O => (false, st)
  | S n' =>
      let st := readEntry currentReadAddress st in
      if checkUIDsMatch (_readUIDBuffer st) _nullUIDEntry then
        (true, st |> writeScanned currentEntry
                  |> println CardSaved |> setLEDMode 6 |> delay 2000)
      else recycleLoop n' (currentEntry + 1) (currentReadAddress + 7) st
  end.

(** Lines 377-436.  [_entryCount + 1] is an [int]; [EEPROM.write] takes a
    [uint8_t], hence [byte.of_Z]. *)
Definition eepromWriteScannedUIDBuffer (st : state) : state :=
  let count := byte.unsigned (_entryCount st) in
  let '(recycledEntry, st) :=
    if 0 <? count then recycleLoop (Z.to_nat count) 1 1 st else (false, st) in
  let st :=
    if negb recycledEntry then
      if count <? 145 then
        st |> writeScanned count
           |> on_rom (fun e => EEPROM.write e 0 (byte.of_Z (count + 1)))
           |> println CardSaved |> setLEDMode 6 |> delay 2000
      else if 145 <=? count then
        st |> println OutOfSpace |> setLEDMode 1 |> delay 1250
      else st
    else st in
  set_adminMode false st.

(** ** The scan cycle *)

(** The card in the field, as the reader library reports it: four or seven
    UID bytes. *)
Inductive card : Type :=
| Card4 (c0 c1 c2 c3 : byte)
| Card7 (uid : uid7).

(** [_nfc.readPassiveTargetID(PN532_MIFARE_ISO14443A, &_scannedUIDBuffer[0],
    &_uidLength)] of the Adafruit library: on success it stores the length and
    copies that many UID bytes to the front of the buffer; bytes of the buffer
    behind them are not touched.  [None] is a call that reports no card. *)
Definition readPassiveTargetID (target : option card) (st : state) : bool * state :=
  match target with
  | None => (false, st)
  | Some (Card4 c0 c1 c2 c3) =>
      let b := _scannedUIDBuffer st in
      (true, st |> set_scanned (UID c0 c1 c2 c3 (u4 b) (u5 b) (u6 b))
                |> set_uidLength (byte.of_Z 4))
  | Some (Card7 uid) =>
      (true, st |> set_scanned uid |> set_uidLength (byte.of_Z 7))
  end.

(** Lines 176-192: what is done with the entry that matched, the one at
    [currentReadAddress]. *)
Definition entryMatched (currentReadAddress : Z) (st : state) : state :=
  if negb (_adminMode st) then
    st |> println FoundUnlock |> unlockDoor
  else
    st |> for_ 7 currentReadAddress
            (fun currentWriteAddress =>
               on_rom (eepromSafeWrite currentWriteAddress (uid_get _nullUIDEntry 0)))
       |> println FoundRemoved |> setLEDMode 5 |> delay 2000
       |> set_adminMode false.

(** Lines 164-199: the search of the stored entries; it stops at the first
    match, and the result carries [entryFound]. *)
Fixpoint scanEntries (n : nat) (currentReadAddress : Z) (st : state) : bool * state :=
  match n with
  | O => (false, st)
  | S n' =>
      let st := readEntry currentReadAddress st in
      if checkUIDsMatch (_scannedUIDBuffer st) (_readUIDBuffer st) then
        (true, entryMatched currentReadAddress st)
      else scanEntries n' (currentReadAddress + 7) st
  end.

(** Lines 139-153: the master card seen while admin mode is on. *)
Definition clearDatabase (st : state) : state :=
  st |> println MasterClear |> setLEDMode 7
     |> on_rom (eepromSafeWrite 0 (byte.of_Z 0))
     |> for_ 1023 1 (fun i st => on_rom (eepromSafeWrite i (nullUIDEntry_at st i)) st)
     |> delay 2000
     |> set_adminMode false.

(** Lines 155-228: a card that is not the master. *)
Definition otherCard (st : state) : state :=
  let st := set_entryCount (EEPROM.read (rom st) 0) st in
  if 0 <? byte.unsigned (_entryCount st) then
    let '(entryFound, st) :=
      scanEntries (Z.to_nat (byte.unsigned (_entryCount st))) 1 st in
    if negb entryFound then
      if negb (_adminMode st) then
        st |> println NotFoundDenied |> setLEDMode 1 |> delay 1250
      else eepromWriteScannedUIDBuffer st
    else st
  else
    if negb (_adminMode st) then
      st |> println EmptyDenied |> setLEDMode 1 |> delay 1250
    else eepromWriteScannedUIDBuffer st.

(** Lines 118-229: the body of [if (scanSuccess)]. *)
Definition scanned (st : state) : state :=
  let st := emit (CardDetected (_scannedUIDBuffer st)) st in
  if checkUIDsMatch (_scannedUIDBuffer st) _masterUIDEntry then
    if negb (_adminMode st) then
      st |> println MasterEnter |> set_adminMode true |> setLEDMode 0 |> delay 1250
    else clearDatabase st
  else otherCard st.

(** Lines 102-230: one pass of [loop], given what the reader reports. *)
Definition loop (target : option card) (st : state) : state :=
  let st := if negb (_adminMode st) then setLEDMode 2 st else setLEDMode 4 st in
  let '(scanSuccess, st) := readPassiveTargetID target st in
  if scanSuccess then scanned st else st.

(** Lines 55-95.  [versionData] is the answer of [getFirmwareVersion]; with no
    board the sketch spins in [while (1)] and never reaches [loop]: [None]. *)
Definition setup (versionData : Z) (st : state) : option state :=
  let st := for_ 7 0
              (fun i st =>
                 st |> set_scanned (uid_set (_scannedUIDBuffer st) i (byte.of_Z 0))
                    |> set_read (uid_set (_readUIDBuffer st) i (byte.of_Z 0)))
              st in
  if versionData =? 0 then None else Some st.

(** The globals as their initialisers leave them at power-on. *)
Definition powerOn (e : eeprom) (mem : Z -> byte) : state :=
  State zeroUID (byte.of_Z 0) (byte.of_Z 0) zeroUID false e mem [].

(** Several passes of [loop], one reader answer each. *)
Definition run (targets : list (option card)) (st : state) : state :=
  fold_left (fun st target => loop target st) targets st.

(** ** The store as the sketch reads it *)

(** The seven bytes that [readEntry] finds at [currentReadAddress]. *)
Definition entryAt (e : eeprom) (currentReadAddress : Z) : uid7 :=
  UID (EEPROM.read e (currentReadAddress + 0)) (EEPROM.read e (currentReadAddress + 1))
      (EEPROM.read e (currentReadAddress + 2)) (EEPROM.read e (currentReadAddress + 3))
      (EEPROM.read e (currentReadAddress + 4)) (EEPROM.read e (currentReadAddress + 5))
      (EEPROM.read e (currentReadAddress + 6)).

(** Byte offset of the first byte of record slot [slot], slots counted from 1. *)
Definition slotAddress (slot : Z) : Z := 1 + (slot - 1) * 7.

(** The count byte at offset 0, as a number. *)
Definition header (e : eeprom) : Z := byte.unsigned (EEPROM.read e 0).

(** The seven byte writes of [writeScanned], on the EEPROM alone. *)
Definition storeUID (address : Z) (x : uid7) (e : eeprom) : eeprom :=
  for_ 7 0 (fun i e => eepromSafeWrite (address + i) (uid_get x i) e) e.

(** The search of [scanEntries] without its action: the slot, counted from 1,
    of the first of the next [n] entries that matches [id]. *)
Fixpoint findEntry (e : eeprom) (id : uid7) (n : nat) (slot currentReadAddress : Z)
  : option Z :=
  match n with
  | O => None
  | S n' =>
      if checkUIDsMatch id (entryAt e currentReadAddress) then Some slot
      else findEntry e id n' (slot + 1) (currentReadAddress + 7)
  end.

(** Lookup of [id] among the slots 1..count, as lines 157-199 perform it. *)
Definition Lookup (e : eeprom) (id : uid7) : option Z :=
  findEntry e id (Z.to_nat (header e)) 1 1.

(** The search of [recycleLoop]: the lowest nulled slot among 1..count. *)
Definition firstNull (e : eeprom) : option Z :=
  findEntry e _nullUIDEntry (Z.to_nat (header e)) 1 1.

(** The serial messages printed so far, newest first. *)
Definition messages (st : state) : list message :=
  flat_map (fun ev => match ev with Println m => [m] | _ => [] end) (out st).

(** The identifier the sketch works with once the reader has reported the
    card [c]: the scanned buffer as [readPassiveTargetID] leaves it. *)
Definition presented (c : card) (st : state) : uid7 :=
  _scannedUIDBuffer (snd (readPassiveTargetID (Some c) st)).

(** Every one of the physical writes that [e'] has received since [e]
    satisfies [P]. *)
Definition grows (P : write_event -> Prop) (e e' : eeprom) : Prop :=
  exists evs, written e' = evs ++ written e /\ Forall P evs.

(** A physical write that changed the byte of its cell. *)
Definition changing (w : write_event) : Prop := w_old w <> w_new w.

(** Between [e] and [e'] every cell either kept its byte and its write count,
    or it lies in [A], was written exactly once and holds another byte. *)
Definition written_once (A : Z -> Prop) (e e' : eeprom) : Prop :=
  forall a,
    (writeCount e' a = writeCount e a /\ cells e' a = cells e a) \/
    (A a /\ writeCount e' a = S (writeCount e a) /\ cells e' a <> cells e a).

(** The store holds the identifiers [ids] in the slots 1, 2, ... in this
    order, and the count byte is their number. *)
Definition holds (ids : list uid7) (e : eeprom) : Prop :=
  header e = Z.of_nat (List.length ids) /\
  forall j, (j < List.length ids)%nat ->
            entryAt e (slotAddress (Z.of_nat j + 1)) = nth j ids zeroUID.

(** The cells one pass of [loop] may write: none below 0, and none above
    1023 while the count byte is at most 145. *)
Definition in_device (e : eeprom) (a : Z) : Prop :=
  0 <= a /\ (header e <= 145 -> a < 1024).

(** Presenting the master card and then the card with UID [id], for every
    [id] of the list in turn. *)
Definition enroll (ids : list uid7) : list (option card) :=
  flat_map (fun id => [Some (Card7 _masterUIDEntry); Some (Card7 id)]) ids.

(** ** Decidable side conditions *)

(** No identifier occurs twice in [l]. *)
Fixpoint distinct (l : list uid7) : bool :=
  match l with
  | [] => true
  | x :: l' => negb (existsb (checkUIDsMatch x) l') && distinct l'
  end.

(** ** Example stores and cards *)

(** An erased store with the count byte set to 0. *)
Definition blankStore : eeprom :=
  Eeprom (fun a => if a =? 0 then byte.of_Z 0 else byte.of_Z 255) [].

(** A store with count byte 145 in which every record byte is 1. *)
Definition fullStore : eeprom :=
  Eeprom (fun a => if a =? 0 then byte.of_Z 145 else byte.of_Z 1) [].

(** The sketch after power-on and [setup], on an erased store, with zeros in
    the data memory behind [_nullUIDEntry]. *)
Definition booted : state :=
  match setup 1 (powerOn blankStore (fun _ => byte.of_Z 0)) with
  | Some st => st
  | None => powerOn blankStore (fun _ => byte.of_Z 0)
  end.

Definition cardA : uid7 :=
  UID (byte.of_Z 1) (byte.of_Z 2) (byte.of_Z 3) (byte.of_Z 4)
      (byte.of_Z 5) (byte.of_Z 6) (byte.of_Z 7).

Definition cardB : uid7 :=
  UID (byte.of_Z 9) (byte.of_Z 9) (byte.of_Z 9) (byte.of_Z 9)
      (byte.of_Z 9) (byte.of_Z 9) (byte.of_Z 9).

Definition master : option card := Some (Card7 _masterUIDEntry).

(** [cardA] saved and removed again, then the master card: count byte 1,
    slot 1 nulled, admin mode on. *)
Definition onceRemoved : state :=
  run (enroll [cardA; cardA] ++ [master]) booted.

(** The identifiers n,0,0,0,0,0,1 for n = first, ..., first + count - 1. *)
Definition numbered (first count : nat) : list uid7 :=
  map (fun n => UID (byte.of_Z (Z.of_nat n)) (byte.of_Z 0) (byte.of_Z 0) (byte.of_Z 0)
                    (byte.of_Z 0) (byte.of_Z 0) (byte.of_Z 1))
      (seq first count).

(** The card n = 145 of the numbering above. *)
Definition extraCard : uid7 := nth 0 (numbered 145 1) zeroUID.

(** [cardA] saved: count byte 1, slot 1 holds it, admin mode off. *)
Definition oneSaved : state := run (enroll [cardA]) booted.

(** [cardA] saved, then the master card: admin mode on. *)
Definition oneSavedAdmin : state := loop master oneSaved.

(** Admin mode on a full store. *)
Definition fullAdmin : state :=
  State zeroUID (byte.of_Z 0) (byte.of_Z 0) zeroUID true fullStore
        (fun _ => byte.of_Z 0) [].

(** ** The indicator, the motor and the kinds of reader answers *)

(** Lines 239-297: the levels [setLEDMode] writes to the green, the red and
    the blue LED pin, in this order. *)
Definition ledLevels (pColourMode : Z) : Z * Z * Z :=
  let ledOff := 0 in
  let ledLow := 100 in
  let ledMedium := 130 in
  let ledHigh := 255 in
  match pColourMode with
  | 1 => (ledOff, ledHigh, ledOff)
  | 2 => (ledOff, ledOff, ledHigh)
  | 3 => (ledHigh, ledOff, ledOff)
  | 4 => (ledHigh, ledMedium, ledOff)
  | 5 => (ledOff, ledMedium, ledHigh)
  | 6 => (ledHigh, ledOff, ledMedium)
  | 7 => (ledHigh, ledLow, ledMedium)
  | _ => (ledOff, ledOff, ledOff)
  end.

(** The newest motor command among the events [evs] (newest first). *)
Fixpoint lastMotor (evs : list event) : option (bool * bool * Z) :=
  match evs with
  | [] => None
  | Motor direction1 direction2 enable :: _ => Some (direction1, direction2, enable)
  | _ :: evs' => lastMotor evs'
  end.

(** A reader answer that cannot be the master card: no card, a 7-byte UID
    other than the master entry, or a 4-byte UID that differs from the first
    four bytes of the master entry. *)
Definition notMaster (target : option card) : Prop :=
  match target with
  | None => True
  | Some (Card7 uid) => uid <> _masterUIDEntry
  | Some (Card4 c0 c1 c2 c3) =>
      (c0, c1, c2, c3) <>
      (u0 _masterUIDEntry, u1 _masterUIDEntry, u2 _masterUIDEntry, u3 _masterUIDEntry)
  end.

(** A reader answer that is no 7-byte UID. *)
Definition noLongCard (target : option card) : Prop :=
  match target with
  | Some (Card7 _) => False
  | _ => True
  end.

(** [cardA] and [cardB] saved, then the master card: slots 1 and 2 hold
    them, admin mode is on. *)
Definition twoSavedAdmin : state :=
  run (enroll [cardA; cardB] ++ [master]) booted.

(** * Proofs *)

(** ** Bytes and seven-byte arrays *)

Local Arguments Byte.eqb : simpl never.

Lemma byte_eqb_iff (a b : byte) : Byte.eqb a b = true <-> a = b.
Proof. split; [apply Byte.byte_dec_bl | apply Byte.byte_dec_lb]. Qed.

Lemma byte_eqb_refl (a : byte) : Byte.eqb a a = true.
Proof. now apply byte_eqb_iff. Qed.

(** [checkUIDsMatch] decides equality of the two arrays. *)
Lemma checkUIDsMatch_iff (x y : uid7) : checkUIDsMatch x y = true <-> x = y.
Proof.
  destruct x as [x0 x1 x2 x3 x4 x5 x6], y as [y0 y1 y2 y3 y4 y5 y6].
  unfold checkUIDsMatch; cbn.
  split.
  - destruct (Byte.eqb x0 y0) eqn:E0, (Byte.eqb x1 y1) eqn:E1,
      (Byte.eqb x2 y2) eqn:E2, (Byte.eqb x3 y3) eqn:E3,
      (Byte.eqb x4 y4) eqn:E4, (Byte.eqb x5 y5) eqn:E5,
      (Byte.eqb x6 y6) eqn:E6; cbn; try discriminate.
    intros _.
    apply byte_eqb_iff in E0, E1, E2, E3, E4, E5, E6. congruence.
  - intros H; injection H as -> -> -> -> -> -> ->.
    now rewrite !byte_eqb_refl.
Qed.

Lemma checkUIDsMatch_refl x : checkUIDsMatch x x = true.
Proof. now apply checkUIDsMatch_iff. Qed.

Lemma checkUIDsMatch_false_iff x y : checkUIDsMatch x y = false <-> x <> y.
Proof.
  split.
  - intros H E. apply checkUIDsMatch_iff in E. congruence.
  - intros H. destruct (checkUIDsMatch x y) eqn:E; [|reflexivity].
    apply checkUIDsMatch_iff in E. contradiction.
Qed.

Lemma checkUIDsMatch_sym x y : checkUIDsMatch x y = checkUIDsMatch y x.
Proof.
  destruct (checkUIDsMatch y x) eqn:E.
  - apply checkUIDsMatch_iff in E. subst. apply checkUIDsMatch_refl.
  - apply checkUIDsMatch_false_iff in E. apply checkUIDsMatch_false_iff. congruence.
Qed.

(** The copy loops, in one step. *)
Lemma readEntry_eq a st : readEntry a st = set_read (entryAt (rom st) a) st.
Proof. reflexivity. Qed.

Lemma writeScanned_eq entry st :
  writeScanned entry st = on_rom (storeUID (entry * 7 + 1) (_scannedUIDBuffer st)) st.
Proof. reflexivity. Qed.

Lemma set_read_same st : set_read (_readUIDBuffer st) st = st.
Proof. now destruct st. Qed.

Lemma set_read_set_read x y st : set_read x (set_read y st) = set_read x st.
Proof. reflexivity. Qed.

(** ** The two searches *)

(** [scanEntries] finds what [findEntry] finds: at a match it runs
    [entryMatched] on the matching entry; without one it changes nothing but
    the read buffer. *)
Lemma scanEntries_spec n : forall slot a st,
  match findEntry (rom st) (_scannedUIDBuffer st) n slot a with
  | None => exists x, scanEntries n a st = (false, set_read x st)
  | Some k =>
      scanEntries n a st =
      (true, entryMatched (a + 7 * (k - slot))
               (set_read (entryAt (rom st) (a + 7 * (k - slot))) st))
  end.
Proof.
  induction n as [|n IH]; intros slot a st; cbn [findEntry scanEntries].
  - exists (_readUIDBuffer st). now rewrite set_read_same.
  - rewrite readEntry_eq. cbn [_scannedUIDBuffer _readUIDBuffer set_read].
    destruct (checkUIDsMatch (_scannedUIDBuffer st) (entryAt (rom st) a)) eqn:E.
    + replace (a + 7 * (slot - slot)) with a by lia. reflexivity.
    + specialize (IH (slot + 1) (a + 7) (set_read (entryAt (rom st) a) st)).
      cbn [rom _scannedUIDBuffer set_read] in IH.
      destruct (findEntry (rom st) (_scannedUIDBuffer st) n (slot + 1) (a + 7)) as [k|].
      * rewrite IH. replace (a + 7 + 7 * (k - (slot + 1))) with (a + 7 * (k - slot)) by lia.
        reflexivity.
      * destruct IH as [x IH]. exists x. rewrite IH. reflexivity.
Qed.

(** [recycleLoop] stops at the first nulled entry that [findEntry] reports
    and writes the scanned buffer with [currentEntry] as the entry number. *)
Lemma recycleLoop_spec n : forall currentEntry a st,
  match findEntry (rom st) _nullUIDEntry n currentEntry a with
  | None => exists x, recycleLoop n currentEntry a st = (false, set_read x st)
  | Some k =>
      exists x,
      recycleLoop n currentEntry a st =
      (true, set_read x st |> writeScanned k
                           |> println CardSaved |> setLEDMode 6 |> delay 2000)
  end.
Proof.
  induction n as [|n IH]; intros ce a st; cbn [findEntry recycleLoop].
  - exists (_readUIDBuffer st). now rewrite set_read_same.
  - rewrite readEntry_eq. cbn [_readUIDBuffer set_read].
    rewrite (checkUIDsMatch_sym (entryAt (rom st) a)).
    destruct (checkUIDsMatch _nullUIDEntry (entryAt (rom st) a)) eqn:E.
    + exists (entryAt (rom st) a). reflexivity.
    + specialize (IH (ce + 1) (a + 7) (set_read (entryAt (rom st) a) st)).
      cbn [rom set_read] in IH.
      destruct (findEntry (rom st) _nullUIDEntry n (ce + 1) (a + 7)) as [k|];
        destruct IH as [x IH]; exists x; rewrite IH; reflexivity.
Qed.

(** Slots found by [findEntry] lie among the [n] slots searched, hold the
    identifier, and no earlier slot does. *)
Lemma findEntry_Some e id n : forall slot a k,
  findEntry e id n slot a = Some k ->
  slot <= k < slot + Z.of_nat n /\ entryAt e (a + 7 * (k - slot)) = id /\
  forall j, slot <= j < k -> entryAt e (a + 7 * (j - slot)) <> id.
Proof.
  induction n as [|n IH]; intros slot a k; cbn [findEntry]; [discriminate|].
  destruct (checkUIDsMatch id (entryAt e a)) eqn:E.
  - intros [= <-]. replace (a + 7 * (slot - slot)) with a by lia.
    apply checkUIDsMatch_iff in E. repeat split; try lia. now symmetry.
  - intros H. apply IH in H as (Hk & Hid & Hlow).
    replace (a + 7 + 7 * (k - (slot + 1))) with (a + 7 * (k - slot)) in Hid by lia.
    repeat split; try lia; [exact Hid|].
    intros j Hj. destruct (Z.eq_dec j slot) as [->|Hne].
    + replace (a + 7 * (slot - slot)) with a by lia.
      apply checkUIDsMatch_false_iff in E. congruence.
    + specialize (Hlow j ltac:(lia)).
      now replace (a + 7 + 7 * (j - (slot + 1))) with (a + 7 * (j - slot)) in Hlow by lia.
Qed.

Lemma findEntry_None e id n : forall slot a,
  findEntry e id n slot a = None <->
  forall j, slot <= j < slot + Z.of_nat n -> entryAt e (a + 7 * (j - slot)) <> id.
Proof.
  induction n as [|n IH]; intros slot a; cbn [findEntry].
  - split; [intros _ j Hj; lia | reflexivity].
  - destruct (checkUIDsMatch id (entryAt e a)) eqn:E.
    + split; [discriminate|]. intros H. exfalso.
      apply checkUIDsMatch_iff in E. apply (H slot); [lia|].
      replace (a + 7 * (slot - slot)) with a by lia. now symmetry.
    + rewrite IH. apply checkUIDsMatch_false_iff in E. split; intros H j Hj.
      * destruct (Z.eq_dec j slot) as [->|Hne].
        -- replace (a + 7 * (slot - slot)) with a by lia. congruence.
        -- specialize (H j ltac:(lia)).
           now replace (a + 7 + 7 * (j - (slot + 1))) with (a + 7 * (j - slot)) in H by lia.
      * specialize (H j ltac:(lia)).
        now replace (a + 7 + 7 * (j - (slot + 1))) with (a + 7 * (j - slot)) by lia.
Qed.

(** ** Loops without [break] *)

Lemma for_invariant {St : Type} (R : St -> St -> Prop) (body : Z -> St -> St) :
  (forall s, R s s) ->
  (forall a b c, R a b -> R b c -> R a c) ->
  (forall i s, R s (body i s)) ->
  forall n i s, R s (for_ n i body s).
Proof.
  intros Hrefl Htrans Hbody n.
  induction n as [|n IH]; intros i s; cbn [for_]; [apply Hrefl|].
  eapply Htrans; [apply Hbody | apply IH].
Qed.

(** ** Cells and write log of the EEPROM *)

Lemma byte_unsigned_bounds (b : byte) : 0 <= byte.unsigned b < 256.
Proof. pose proof (byte.unsigned_range b) as H. change (2 ^ 8) with 256 in H. exact H. Qed.

(** Written or not, the cell holds the byte afterwards. *)
Lemma eepromSafeWrite_cells a v e x :
  cells (eepromSafeWrite a v e) x = if x =? a then v else cells e x.
Proof.
  unfold eepromSafeWrite, EEPROM.read.
  destruct (Byte.eqb (cells e a) v) eqn:E; cbn.
  - apply byte_eqb_iff in E. destruct (Z.eqb_spec x a); congruence.
  - reflexivity.
Qed.

Lemma grows_refl P e : grows P e e.
Proof. exists []. split; [reflexivity | constructor]. Qed.

Lemma grows_trans P e1 e2 e3 : grows P e1 e2 -> grows P e2 e3 -> grows P e1 e3.
Proof.
  intros (l1 & H1 & F1) (l2 & H2 & F2). exists (l2 ++ l1). split.
  - now rewrite H2, H1, app_assoc.
  - apply Forall_app. now split.
Qed.

Lemma eepromSafeWrite_grows a v e : grows changing e (eepromSafeWrite a v e).
Proof.
  unfold eepromSafeWrite, EEPROM.read.
  destruct (Byte.eqb (cells e a) v) eqn:E; cbn; [apply grows_refl|].
  exists [Wr a (cells e a) v]. split; [reflexivity|].
  constructor; [|constructor]. unfold changing; cbn.
  intros H. apply byte_eqb_iff in H. congruence.
Qed.

Lemma storeUID_grows a x e : grows changing e (storeUID a x e).
Proof.
  unfold storeUID.
  apply (for_invariant (grows changing)); auto using grows_refl, eepromSafeWrite_grows.
  intros; eapply grows_trans; eauto.
Qed.

Ltac split_eqb :=
  repeat match goal with
         | |- context [?p =? ?q] => destruct (Z.eqb_spec p q); try lia
         end.

Lemma storeUID_cells_out a u e x :
  x < a \/ a + 7 <= x -> cells (storeUID a u e) x = cells e x.
Proof.
  intros H. unfold storeUID; cbn [for_ Z.add Pos.add Pos.succ].
  rewrite !eepromSafeWrite_cells. split_eqb. reflexivity.
Qed.

Lemma storeUID_entryAt a u e : entryAt (storeUID a u e) a = u.
Proof.
  destruct u as [x0 x1 x2 x3 x4 x5 x6].
  unfold entryAt, EEPROM.read, storeUID; cbn [for_ Z.add Pos.add Pos.succ uid_get].
  rewrite !eepromSafeWrite_cells.
  f_equal; split_eqb; reflexivity.
Qed.

Lemma storeUID_entryAt_other a u e b :
  b + 7 <= a \/ a + 7 <= b -> entryAt (storeUID a u e) b = entryAt e b.
Proof.
  intros H. unfold entryAt, EEPROM.read.
  rewrite !storeUID_cells_out by lia. reflexivity.
Qed.

(** ** The routines of the sketch, one case at a time *)

Local Arguments byte.unsigned : simpl never.
Local Arguments byte.of_Z : simpl never.

Ltac fields :=
  cbn [_scannedUIDBuffer _uidLength _entryCount _readUIDBuffer _adminMode rom
       past_null out set_scanned set_uidLength set_entryCount set_read
       set_adminMode set_rom emit on_rom setLEDMode println delay unlockDoor
       fst snd negb] in *.

(** The three ways through [eepromWriteScannedUIDBuffer]: a nulled entry was
    found, the entry is appended, or the store is full. *)
Lemma eepromWrite_spec st :
  exists x,
    eepromWriteScannedUIDBuffer st =
    match findEntry (rom st) _nullUIDEntry
                    (Z.to_nat (byte.unsigned (_entryCount st))) 1 1 with
    | Some k =>
        set_read x st |> writeScanned k
                      |> println CardSaved |> setLEDMode 6 |> delay 2000
                      |> set_adminMode false
    | None =>
        if byte.unsigned (_entryCount st) <? 145 then
          set_read x st
            |> writeScanned (byte.unsigned (_entryCount st))
            |> on_rom (fun e =>
                 EEPROM.write e 0 (byte.of_Z (byte.unsigned (_entryCount st) + 1)))
            |> println CardSaved |> setLEDMode 6 |> delay 2000
            |> set_adminMode false
        else
          set_read x st |> println OutOfSpace |> setLEDMode 1 |> delay 1250
                        |> set_adminMode false
    end.
Proof.
  unfold eepromWriteScannedUIDBuffer.
  pose proof (byte_unsigned_bounds (_entryCount st)) as Hc.
  destruct (0 <? byte.unsigned (_entryCount st)) eqn:E0.
  - pose proof (recycleLoop_spec (Z.to_nat (byte.unsigned (_entryCount st))) 1 1 st) as H.
    destruct (findEntry _ _ _ _ _) as [k|]; destruct H as [x H]; exists x; rewrite H.
    + reflexivity.
    + cbn [negb]. destruct (Z.ltb_spec (byte.unsigned (_entryCount st)) 145).
      * reflexivity.
      * destruct (Z.leb_spec 145 (byte.unsigned (_entryCount st))); [reflexivity | lia].
  - apply Z.ltb_ge in E0.
    replace (byte.unsigned (_entryCount st)) with 0 by lia.
    exists (_readUIDBuffer st). rewrite set_read_same. reflexivity.
Qed.

(** A card that is not the master: the action depends on the lookup. *)
Lemma otherCard_spec st :
  let st0 := set_entryCount (EEPROM.read (rom st) 0) st in
  match Lookup (rom st) (_scannedUIDBuffer st) with
  | Some k =>
      otherCard st =
      entryMatched (slotAddress k) (set_read (entryAt (rom st) (slotAddress k)) st0)
  | None =>
      exists x,
        otherCard st =
        if negb (_adminMode st) then
          set_read x st0
            |> println (if 0 <? header (rom st) then NotFoundDenied else EmptyDenied)
            |> setLEDMode 1 |> delay 1250
        else eepromWriteScannedUIDBuffer (set_read x st0)
  end.
Proof.
  intros st0. unfold otherCard, Lookup, header. fold st0.
  change (_entryCount st0) with (EEPROM.read (rom st) 0).
  change (_adminMode st0) with (_adminMode st).
  destruct (0 <? byte.unsigned (EEPROM.read (rom st) 0)) eqn:E0.
  - pose proof (scanEntries_spec (Z.to_nat (byte.unsigned (EEPROM.read (rom st) 0)))
                                 1 1 st0) as H.
    change (rom st0) with (rom st) in H.
    change (_scannedUIDBuffer st0) with (_scannedUIDBuffer st) in H.
    destruct (findEntry _ _ _ _ _) as [k|].
    + rewrite H. unfold slotAddress.
      replace (1 + 7 * (k - 1)) with (1 + (k - 1) * 7) by lia. reflexivity.
    + destruct H as [x H]. exists x. rewrite H. reflexivity.
  - pose proof (byte_unsigned_bounds (EEPROM.read (rom st) 0)) as Hc.
    apply Z.ltb_ge in E0.
    replace (byte.unsigned (EEPROM.read (rom st) 0)) with 0 by lia.
    exists (_readUIDBuffer st0). rewrite set_read_same. reflexivity.
Qed.

(** One pass of [loop] with a card in the field is [scanned] on a state that
    differs from the old one in the scanned buffer, the length and the LED. *)
Lemma loop_Some c st :
  exists st1,
    loop (Some c) st = scanned st1 /\
    _scannedUIDBuffer st1 = presented c st /\
    _adminMode st1 = _adminMode st /\
    rom st1 = rom st /\
    past_null st1 = past_null st /\
    messages st1 = messages st.
Proof.
  unfold loop, presented.
  destruct (_adminMode st) eqn:Ea; destruct c as [c0 c1 c2 c3|u];
    cbn [negb readPassiveTargetID fst snd];
    eexists; (split; [reflexivity|]); fields; auto.
Qed.

Lemma messages_emit ev st :
  messages (emit ev st) =
  match ev with Println m => m :: messages st | _ => messages st end.
Proof. unfold messages; cbn. now destruct ev. Qed.

Lemma scanned_other st :
  _scannedUIDBuffer st <> _masterUIDEntry ->
  scanned st = otherCard (emit (CardDetected (_scannedUIDBuffer st)) st).
Proof.
  intros H. unfold scanned. fields.
  apply checkUIDsMatch_false_iff in H. now rewrite H.
Qed.

Lemma scanned_master st :
  _scannedUIDBuffer st = _masterUIDEntry ->
  scanned st =
  let st := emit (CardDetected (_scannedUIDBuffer st)) st in
  if negb (_adminMode st) then
    st |> println MasterEnter |> set_adminMode true |> setLEDMode 0 |> delay 1250
  else clearDatabase st.
Proof.
  intros H. unfold scanned. fields.
  apply checkUIDsMatch_iff in H. now rewrite H.
Qed.

(** The removal loop of [entryMatched] works on the EEPROM alone. *)
Lemma eraseLoop_eq a v st :
  for_ 7 a (fun w => on_rom (eepromSafeWrite w v)) st =
  on_rom (for_ 7 a (fun w => eepromSafeWrite w v)) st.
Proof. reflexivity. Qed.

(** What a card other than the master does while admin mode is off. *)
Lemma otherCard_normal st :
  _adminMode st = false ->
  rom (otherCard st) = rom st /\
  _adminMode (otherCard st) = false /\
  messages (otherCard st) =
  match Lookup (rom st) (_scannedUIDBuffer st) with
  | Some _ => FoundUnlock
  | None => if 0 <? header (rom st) then NotFoundDenied else EmptyDenied
  end :: messages st.
Proof.
  intros Ha. pose proof (otherCard_spec st) as H. cbv zeta in H.
  destruct (Lookup (rom st) (_scannedUIDBuffer st)) as [k|].
  - rewrite H. unfold entryMatched. fields. rewrite Ha. fields.
    repeat split; auto.
  - destruct H as [x H]. rewrite H, Ha. fields.
    repeat split; auto.
Qed.

(** What a card other than the master does while admin mode is on. *)
Lemma otherCard_admin st :
  _adminMode st = true ->
  _adminMode (otherCard st) = false /\
  messages (otherCard st) =
  match Lookup (rom st) (_scannedUIDBuffer st) with
  | Some _ => FoundRemoved
  | None =>
      match firstNull (rom st) with
      | Some _ => CardSaved
      | None => if header (rom st) <? 145 then CardSaved else OutOfSpace
      end
  end :: messages st /\
  rom (otherCard st) =
  match Lookup (rom st) (_scannedUIDBuffer st) with
  | Some k =>
      for_ 7 (slotAddress k) (fun w => eepromSafeWrite w (uid_get _nullUIDEntry 0)) (rom st)
  | None =>
      match firstNull (rom st) with
      | Some k => storeUID (k * 7 + 1) (_scannedUIDBuffer st) (rom st)
      | None =>
          if header (rom st) <? 145 then
            EEPROM.write
              (storeUID (header (rom st) * 7 + 1) (_scannedUIDBuffer st) (rom st))
              0 (byte.of_Z (header (rom st) + 1))
          else rom st
      end
  end.
Proof.
  intros Ha. pose proof (otherCard_spec st) as H. cbv zeta in H.
  destruct (Lookup (rom st) (_scannedUIDBuffer st)) as [k|].
  - rewrite H. unfold entryMatched. fields. rewrite Ha. cbn [negb].
    rewrite eraseLoop_eq. fields. repeat split; auto.
  - destruct H as [x H]. rewrite H, Ha. cbn [negb].
    destruct (eepromWrite_spec
                (set_read x (set_entryCount (EEPROM.read (rom st) 0) st))) as [y Hy].
    rewrite Hy. fields. unfold firstNull, header.
    destruct (findEntry _ _ _ _ _) as [k|].
    + rewrite writeScanned_eq. fields. repeat split; auto.
    + destruct (byte.unsigned (EEPROM.read (rom st) 0) <? 145).
      * rewrite writeScanned_eq. fields. repeat split; auto.
      * fields. repeat split; auto.
Qed.

(** The same, for one pass of [loop] on a card other than the master. *)
Lemma loop_other_admin c st :
  _adminMode st = true ->
  presented c st <> _masterUIDEntry ->
  _adminMode (loop (Some c) st) = false /\
  messages (loop (Some c) st) =
  match Lookup (rom st) (presented c st) with
  | Some _ => FoundRemoved
  | None =>
      match firstNull (rom st) with
      | Some _ => CardSaved
      | None => if header (rom st) <? 145 then CardSaved else OutOfSpace
      end
  end :: messages st /\
  rom (loop (Some c) st) =
  match Lookup (rom st) (presented c st) with
  | Some k =>
      for_ 7 (slotAddress k) (fun w => eepromSafeWrite w (uid_get _nullUIDEntry 0)) (rom st)
  | None =>
      match firstNull (rom st) with
      | Some k => storeUID (k * 7 + 1) (presented c st) (rom st)
      | None =>
          if header (rom st) <? 145 then
            EEPROM.write
              (storeUID (header (rom st) * 7 + 1) (presented c st) (rom st))
              0 (byte.of_Z (header (rom st) + 1))
          else rom st
      end
  end.
Proof.
  intros Ha Hm.
  destruct (loop_Some c st) as (st1 & -> & Hb & Ha1 & Hr & _ & Hmsg).
  rewrite scanned_other by congruence.
  destruct (otherCard_admin (emit (CardDetected (_scannedUIDBuffer st1)) st1))
    as (Hadm & Hout & Hrom); [fields; congruence|].
  rewrite Hadm, Hout, Hrom, messages_emit. fields. rewrite Hr, Hb, Hmsg. auto.
Qed.

(** ** Physical writes *)

Lemma clearDatabase_grows st : grows changing (rom st) (rom (clearDatabase st)).
Proof.
  unfold clearDatabase. generalize 1023%nat; intros n. fields.
  set (st1 := on_rom (eepromSafeWrite 0 (byte.of_Z 0)) _).
  apply grows_trans with (rom st1).
  - subst st1. fields. apply eepromSafeWrite_grows.
  - apply (for_invariant (fun s s' => grows changing (rom s) (rom s'))).
    + intros; apply grows_refl.
    + intros; eapply grows_trans; eauto.
    + intros i s. fields. apply eepromSafeWrite_grows.
Qed.

Lemma header_write_changes e a x :
  1 <= a -> header e < 145 ->
  grows changing e (EEPROM.write (storeUID a x e) 0 (byte.of_Z (header e + 1))).
Proof.
  intros Ha Hh. apply grows_trans with (storeUID a x e); [apply storeUID_grows|].
  eexists [_]. split; [reflexivity|]. constructor; [|constructor].
  unfold changing; cbn [w_old w_new].
  rewrite storeUID_cells_out by lia. intros E.
  apply (f_equal byte.unsigned) in E. rewrite byte.unsigned_of_Z in E.
  unfold header, EEPROM.read, byte.wrap in *.
  pose proof (byte_unsigned_bounds (cells e 0)).
  rewrite Z.mod_small in E by (change (2 ^ 8) with 256; lia). lia.
Qed.

Lemma otherCard_grows st : grows changing (rom st) (rom (otherCard st)).
Proof.
  destruct (_adminMode st) eqn:Ea.
  - destruct (otherCard_admin st Ea) as (_ & _ & ->).
    destruct (Lookup _ _).
    + apply (for_invariant (grows changing)); auto using grows_refl, eepromSafeWrite_grows.
      intros; eapply grows_trans; eauto.
    + destruct (firstNull _); [apply storeUID_grows|].
      destruct (Z.ltb_spec (header (rom st)) 145); [|apply grows_refl].
      apply header_write_changes; [|assumption].
      pose proof (byte_unsigned_bounds (EEPROM.read (rom st) 0)). unfold header. lia.
  - destruct (otherCard_normal st Ea) as (-> & _). apply grows_refl.
Qed.

Lemma scanned_grows st : grows changing (rom st) (rom (scanned st)).
Proof.
  destruct (checkUIDsMatch (_scannedUIDBuffer st) _masterUIDEntry) eqn:E.
  - apply checkUIDsMatch_iff in E. rewrite (scanned_master st E). cbv zeta. fields.
    destruct (_adminMode st); cbn [negb].
    + apply (clearDatabase_grows (emit _ st)).
    + fields. apply grows_refl.
  - apply checkUIDsMatch_false_iff in E. rewrite (scanned_other st E).
    apply (otherCard_grows (emit _ st)).
Qed.

Lemma loop_grows target st : grows changing (rom st) (rom (loop target st)).
Proof.
  destruct target as [c|].
  - destruct (loop_Some c st) as (st1 & -> & _ & _ & <- & _).
    apply scanned_grows.
  - unfold loop. destruct (_adminMode st); cbn; apply grows_refl.
Qed.
(** ** Clearing the database *)

Lemma wipeLoop_eq n : forall i st,
  for_ n i (fun i st => on_rom (eepromSafeWrite i (nullUIDEntry_at st i)) st) st =
  set_rom (for_ n i (fun i e => eepromSafeWrite i (nullUIDEntry_at st i) e) (rom st)) st.
Proof.
  induction n as [|n IH]; intros i st; cbn [for_].
  - now destruct st.
  - rewrite IH. reflexivity.
Qed.

Lemma wipeLoop_cells (g : Z -> byte) n : forall i e a,
  cells (for_ n i (fun i e => eepromSafeWrite i (g i) e) e) a =
  if (i <=? a) && (a <? i + Z.of_nat n) then g a else cells e a.
Proof.
  induction n as [|n IH]; intros i e a; cbn [for_].
  - destruct (Z.leb_spec i a), (Z.ltb_spec a (i + Z.of_nat 0)); cbn; auto; lia.
  - rewrite IH, eepromSafeWrite_cells.
    destruct (Z.leb_spec (i + 1) a), (Z.ltb_spec a (i + 1 + Z.of_nat n)),
      (Z.leb_spec i a), (Z.ltb_spec a (i + Z.of_nat (S n))), (Z.eqb_spec a i);
      cbn; subst; auto; lia.
Qed.

Lemma clearDatabase_spec st :
  _adminMode (clearDatabase st) = false /\
  messages (clearDatabase st) = MasterClear :: messages st /\
  forall a,
    cells (rom (clearDatabase st)) a =
    if (1 <=? a) && (a <? 1024) then nullUIDEntry_at st a
    else if a =? 0 then byte.of_Z 0 else cells (rom st) a.
Proof.
  unfold clearDatabase. change 1024 with (1 + Z.of_nat 1023).
  generalize 1023%nat; intros n.
  rewrite wipeLoop_eq. fields. repeat split; auto.
  intros a. rewrite wipeLoop_cells, eepromSafeWrite_cells. reflexivity.
Qed.

(** ** The master card *)

(** The master card with admin mode off: admin mode goes on, the EEPROM is
    left alone. *)
Lemma master_normal c st :
  _adminMode st = false ->
  presented c st = _masterUIDEntry ->
  _adminMode (loop (Some c) st) = true /\
  rom (loop (Some c) st) = rom st /\
  past_null (loop (Some c) st) = past_null st /\
  messages (loop (Some c) st) = MasterEnter :: messages st.
Proof.
  intros Ha Hm.
  destruct (loop_Some c st) as (st1 & -> & Hb & Ha1 & Hr & Hp & Hmsg).
  rewrite scanned_master by congruence. cbv zeta. fields.
  rewrite Ha1, Ha. fields. rewrite <- Hmsg. auto.
Qed.

(** The master card with admin mode on: the database is cleared. *)
Lemma master_admin c st :
  _adminMode st = true ->
  presented c st = _masterUIDEntry ->
  _adminMode (loop (Some c) st) = false /\
  messages (loop (Some c) st) = MasterClear :: messages st /\
  forall a,
    cells (rom (loop (Some c) st)) a =
    if (1 <=? a) && (a <? 1024) then nullUIDEntry_at st a
    else if a =? 0 then byte.of_Z 0 else cells (rom st) a.
Proof.
  intros Ha Hm.
  destruct (loop_Some c st) as (st1 & -> & Hb & Ha1 & Hr & Hp & Hmsg).
  rewrite scanned_master by congruence. cbv zeta. fields.
  rewrite Ha1, Ha. cbn [negb].
  destruct (clearDatabase_spec (emit (CardDetected (_scannedUIDBuffer st1)) st1))
    as (H1 & H2 & H3).
  rewrite H1, H2, messages_emit, Hmsg.
  split; [reflexivity | split; [reflexivity|]].
  intros a. rewrite H3. unfold nullUIDEntry_at. fields. now rewrite Hr, Hp.
Qed.

Lemma Lookup_empty e id : header e = 0 -> Lookup e id = None.
Proof. unfold Lookup. now intros ->. Qed.

(** ** Filling the store *)

Lemma entryAt_write_header e v a :
  1 <= a -> entryAt (EEPROM.write e 0 v) a = entryAt e a.
Proof.
  intros Ha. unfold entryAt, EEPROM.read, EEPROM.write; cbn [cells].
  f_equal; split_eqb; reflexivity.
Qed.

Lemma holds_entry ids e j :
  holds ids e -> 1 <= j < 1 + Z.of_nat (List.length ids) ->
  In (entryAt e (1 + 7 * (j - 1))) ids.
Proof.
  intros [_ H] Hj.
  specialize (H (Z.to_nat (j - 1)) ltac:(lia)).
  unfold slotAddress in H.
  replace (1 + (Z.of_nat (Z.to_nat (j - 1)) + 1 - 1) * 7) with (1 + 7 * (j - 1)) in H by lia.
  rewrite H. apply nth_In. lia.
Qed.

Lemma holds_findEntry_None ids e id :
  holds ids e -> ~ In id ids -> findEntry e id (Z.to_nat (header e)) 1 1 = None.
Proof.
  intros H Hid. apply findEntry_None. intros j Hj E.
  apply Hid. rewrite <- E. apply (holds_entry ids e j H).
  destruct H as [Hh _]. lia.
Qed.

Lemma unsigned_of_Z_small z : 0 <= z < 256 -> byte.unsigned (byte.of_Z z) = z.
Proof.
  intros H. rewrite byte.unsigned_of_Z. unfold byte.wrap.
  apply Z.mod_small. change (2 ^ 8) with 256. lia.
Qed.

(** Appending keeps the store free of gaps. *)
Lemma holds_append ids e id :
  holds ids e -> (List.length ids < 145)%nat ->
  holds (ids ++ [id])
        (EEPROM.write (storeUID (header e * 7 + 1) id e) 0 (byte.of_Z (header e + 1))).
Proof.
  intros [Hh He] Hlen. split.
  - unfold header at 1, EEPROM.read, EEPROM.write; cbn [cells Z.eqb].
    rewrite unsigned_of_Z_small by lia.
    rewrite Hh, length_app; cbn [List.length]. lia.
  - intros j Hj. rewrite length_app in Hj; cbn [List.length] in Hj.
    unfold slotAddress in *.
    rewrite entryAt_write_header by lia.
    destruct (Nat.eq_dec j (List.length ids)) as [->|Hne].
    + rewrite nth_middle.
      replace (1 + (Z.of_nat (List.length ids) + 1 - 1) * 7) with (header e * 7 + 1) by lia.
      apply storeUID_entryAt.
    + rewrite app_nth1 by lia.
      rewrite storeUID_entryAt_other by lia.
      apply He. lia.
Qed.

(** Master card, then a card that is neither stored nor the master nor null,
    on a store without gaps. *)
Lemma enroll_one stored id st :
  _adminMode st = false ->
  holds stored (rom st) ->
  ~ In id stored -> ~ In _nullUIDEntry stored -> id <> _masterUIDEntry ->
  let st' := run (enroll [id]) st in
  _adminMode st' = false /\
  messages st' =
  (if header (rom st) <? 145 then CardSaved else OutOfSpace)
    :: MasterEnter :: messages st /\
  rom st' =
  if header (rom st) <? 145 then
    EEPROM.write (storeUID (header (rom st) * 7 + 1) id (rom st)) 0
                 (byte.of_Z (header (rom st) + 1))
  else rom st.
Proof.
  intros Ha Hs Hid Hnull Hm. cbn [enroll flat_map app run fold_left].
  destruct (master_normal (Card7 _masterUIDEntry) st Ha eq_refl) as (Ha1 & Hr1 & _ & Hm1).
  set (st1 := loop (Some (Card7 _masterUIDEntry)) st) in *.
  destruct (loop_Some (Card7 id) st1) as (st2 & -> & Hb & Ha2 & Hr2 & _ & Hm2).
  change (presented (Card7 id) st1) with id in Hb.
  rewrite scanned_other by congruence.
  destruct (otherCard_admin (emit (CardDetected (_scannedUIDBuffer st2)) st2))
    as (Hadm & Hout & Hrom); [fields; congruence|].
  rewrite Hadm, Hout, Hrom, messages_emit. fields.
  rewrite Hr2, Hr1, Hb, Hm2, Hm1.
  unfold Lookup, firstNull.
  rewrite (holds_findEntry_None stored _ id Hs Hid).
  rewrite (holds_findEntry_None stored _ _ Hs Hnull).
  auto.
Qed.

Lemma saved_log_shift n :
  List.concat (repeat [CardSaved; MasterEnter] n) ++ [CardSaved; MasterEnter] =
  [CardSaved; MasterEnter] ++ List.concat (repeat [CardSaved; MasterEnter] n).
Proof.
  induction n as [|n IH]; [reflexivity|].
  cbn [repeat List.concat]. rewrite <- app_assoc, IH. reflexivity.
Qed.

(** Enrolling a list of fresh identifiers, one after the other. *)
Lemma enroll_many ids : forall stored st,
  _adminMode st = false ->
  holds stored (rom st) ->
  (List.length stored + List.length ids <= 145)%nat ->
  NoDup (stored ++ ids) ->
  ~ In _nullUIDEntry (stored ++ ids) -> ~ In _masterUIDEntry ids ->
  let st' := run (enroll ids) st in
  _adminMode st' = false /\
  holds (stored ++ ids) (rom st') /\
  messages st' =
  List.concat (repeat [CardSaved; MasterEnter] (List.length ids)) ++ messages st.
Proof.
  induction ids as [|id ids IH]; intros stored st Ha Hs Hlen Hnd Hnull Hm.
  - cbn. rewrite app_nil_r. auto.
  - cbn [List.length] in Hlen.
    assert (Hid : ~ In id stored).
    { intros Hin. apply NoDup_remove_2 in Hnd. apply Hnd, in_or_app. now left. }
    assert (Hnull' : ~ In _nullUIDEntry stored).
    { intros Hin. apply Hnull, in_or_app. now left. }
    assert (Hm' : id <> _masterUIDEntry).
    { intros ->. apply Hm. now left. }
    destruct (enroll_one stored id st Ha Hs Hid Hnull' Hm') as (Ha1 & Hm1 & Hr1).
    assert (Hh : (header (rom st) <? 145) = true).
    { apply Z.ltb_lt. destruct Hs as [-> _]. lia. }
    rewrite Hh in Hm1, Hr1.
    change (enroll (id :: ids)) with (enroll [id] ++ enroll ids).
    unfold run in *. rewrite fold_left_app.
    set (st1 := fold_left _ (enroll [id]) st) in *.
    assert (Hs1 : holds (stored ++ [id]) (rom st1)).
    { rewrite Hr1. apply holds_append; [assumption | lia]. }
    replace (stored ++ id :: ids) with ((stored ++ [id]) ++ ids) in *
      by (rewrite <- app_assoc; reflexivity).
    destruct (IH (stored ++ [id]) st1 Ha1 Hs1) as (Ha2 & Hs2 & Hm2); auto.
    + rewrite length_app; cbn [List.length]. lia.
    + intros Hin. apply Hm. now right.
    + repeat split; try assumption; try apply Hs2.
      rewrite Hm2, Hm1. cbn [List.length repeat List.concat].
      change (CardSaved :: MasterEnter :: messages st)
        with ([CardSaved; MasterEnter] ++ messages st).
      rewrite app_assoc, saved_log_shift, <- !app_assoc. reflexivity.
Qed.

(** ** Write counts *)

Lemma writeCount_write e x v a :
  writeCount (EEPROM.write e x v) a =
  if x =? a then S (writeCount e a) else writeCount e a.
Proof.
  unfold writeCount, EEPROM.write; cbn [written filter w_addr].
  now destruct (x =? a).
Qed.

Lemma written_once_refl A e : written_once A e e.
Proof. intros a. now left. Qed.

Lemma written_once_weaken (A B : Z -> Prop) e e' :
  (forall a, A a -> B a) -> written_once A e e' -> written_once B e e'.
Proof. intros HAB H a. destruct (H a) as [?|(? & ? & ?)]; [now left | right; auto]. Qed.

(** Two stretches of writes that touch different cells, one after the other. *)
Lemma written_once_seq (A B : Z -> Prop) e1 e2 e3 :
  (forall a, A a -> B a -> False) ->
  written_once A e1 e2 -> written_once B e2 e3 ->
  written_once (fun a => A a \/ B a) e1 e3.
Proof.
  intros Hdis H1 H2 a.
  destruct (H1 a) as [[Hc1 Hv1]|(HA & Hc1 & Hv1)];
    destruct (H2 a) as [[Hc2 Hv2]|(HB & Hc2 & Hv2)].
  - left. split; congruence.
  - right. repeat split; [now right | congruence | congruence].
  - right. repeat split; [now left | congruence | congruence].
  - destruct (Hdis a HA HB).
Qed.

Lemma write_once e x v :
  cells e x <> v -> written_once (eq x) e (EEPROM.write e x v).
Proof.
  intros Hv a. rewrite writeCount_write. cbn [EEPROM.write cells].
  destruct (Z.eqb_spec x a) as [->|Hne].
  - right. rewrite Z.eqb_refl. auto.
  - left. destruct (Z.eqb_spec a x); [congruence | auto].
Qed.

Lemma eepromSafeWrite_once x v e : written_once (eq x) e (eepromSafeWrite x v e).
Proof.
  unfold eepromSafeWrite, EEPROM.read.
  destruct (Byte.eqb (cells e x) v) eqn:E; cbn [negb].
  - apply written_once_refl.
  - apply write_once. intros H. apply byte_eqb_iff in H. congruence.
Qed.

(** A loop whose pass [j] writes the cell [base + j] and no other. *)
Lemma for_written_once base (body : Z -> eeprom -> eeprom) :
  (forall j e, written_once (eq (base + j)) e (body j e)) ->
  forall n i e,
    written_once (fun a => base + i <= a < base + i + Z.of_nat n) e (for_ n i body e).
Proof.
  intros Hbody n. induction n as [|n IH]; intros i e; cbn [for_].
  - apply written_once_refl.
  - eapply written_once_weaken;
      [| eapply written_once_seq; [| apply (Hbody i e) | apply (IH (i + 1))]].
    + cbn beta. intros a [<-|H]; lia.
    + cbn beta. intros a <- H. lia.
Qed.

Lemma storeUID_once a x e :
  written_once (fun c => a <= c < a + 7) e (storeUID a x e).
Proof.
  unfold storeUID.
  eapply written_once_weaken;
    [| apply (for_written_once a (fun i e => eepromSafeWrite (a + i) (uid_get x i) e))].
  - cbn beta. intros c H. change (Z.of_nat 7) with 7 in H. lia.
  - intros j e'. apply eepromSafeWrite_once.
Qed.

Lemma eraseLoop_once a v n e :
  written_once (fun c => a <= c < a + Z.of_nat n) e
               (for_ n a (fun w => eepromSafeWrite w v) e).
Proof.
  eapply written_once_weaken;
    [| apply (for_written_once 0 (fun w => eepromSafeWrite w v))].
  - cbn beta. intros c H. lia.
  - intros j e'. apply eepromSafeWrite_once.
Qed.

Lemma wipeLoop_once (g : Z -> byte) n e :
  written_once (fun c => 1 <= c < 1 + Z.of_nat n) e
               (for_ n 1 (fun i e => eepromSafeWrite i (g i) e) e).
Proof.
  eapply written_once_weaken;
    [| apply (for_written_once 0 (fun i e => eepromSafeWrite i (g i) e))].
  - cbn beta. intros c H. lia.
  - intros j e'. apply eepromSafeWrite_once.
Qed.

Lemma header_bounds e : 0 <= header e < 256.
Proof. apply byte_unsigned_bounds. Qed.

Lemma clearDatabase_once st :
  written_once (in_device (rom st)) (rom st) (rom (clearDatabase st)).
Proof.
  unfold clearDatabase.
  assert (Hn : Z.of_nat 1023 = 1023) by reflexivity. revert Hn.
  generalize 1023%nat; intros n Hn.
  rewrite wipeLoop_eq. fields.
  eapply written_once_weaken;
    [| eapply written_once_seq;
       [| apply (eepromSafeWrite_once 0 (byte.of_Z 0)) | apply wipeLoop_once]].
  - cbn beta. unfold in_device. intros a [<-|H]; lia.
  - cbn beta. intros a <- H. lia.
Qed.

Lemma otherCard_once st :
  written_once (in_device (rom st)) (rom st) (rom (otherCard st)).
Proof.
  pose proof (header_bounds (rom st)) as Hb.
  destruct (_adminMode st) eqn:Ea.
  - destruct (otherCard_admin st Ea) as (_ & _ & ->).
    unfold Lookup, firstNull.
    destruct (findEntry _ (_scannedUIDBuffer st) _ _ _) as [k|] eqn:El.
    + apply findEntry_Some in El as (Hk & _).
      eapply written_once_weaken; [| apply eraseLoop_once].
      cbn beta. unfold in_device, slotAddress. change (Z.of_nat 7) with 7. lia.
    + destruct (findEntry _ _nullUIDEntry _ _ _) as [k|] eqn:En.
      * apply findEntry_Some in En as (Hk & _).
        eapply written_once_weaken; [| apply storeUID_once].
        cbn beta. unfold in_device. lia.
      * destruct (Z.ltb_spec (header (rom st)) 145); [|apply written_once_refl].
        eapply written_once_weaken;
          [| eapply written_once_seq; [| apply storeUID_once | apply write_once]].
        -- cbn beta. unfold in_device. intros a [Ha| <-]; lia.
        -- cbn beta. intros a Ha <-. lia.
        -- rewrite storeUID_cells_out by lia. intros E.
           apply (f_equal byte.unsigned) in E.
           rewrite unsigned_of_Z_small in E by lia.
           unfold header, EEPROM.read in *. lia.
  - destruct (otherCard_normal st Ea) as (-> & _). apply written_once_refl.
Qed.

Lemma scanned_once st :
  written_once (in_device (rom st)) (rom st) (rom (scanned st)).
Proof.
  destruct (checkUIDsMatch (_scannedUIDBuffer st) _masterUIDEntry) eqn:E.
  - apply checkUIDsMatch_iff in E. rewrite (scanned_master st E). cbv zeta. fields.
    destruct (_adminMode st); cbn [negb].
    + apply (clearDatabase_once (emit _ st)).
    + fields. apply written_once_refl.
  - apply checkUIDsMatch_false_iff in E. rewrite (scanned_other st E).
    apply (otherCard_once (emit _ st)).
Qed.

Lemma loop_once target st :
  written_once (in_device (rom st)) (rom st) (rom (loop target st)).
Proof.
  destruct target as [c|].
  - destruct (loop_Some c st) as (st1 & -> & _ & _ & <- & _).
    apply scanned_once.
  - unfold loop. destruct (_adminMode st); cbn; apply written_once_refl.
Qed.

(** While the count byte is at most 145, one pass of [loop] writes only
    cells that the device has. *)
Lemma loop_writes_in_device target st a :
  header (rom st) <= 145 ->
  writeCount (rom (loop target st)) a <> writeCount (rom st) a ->
  0 <= a < 1024.
Proof.
  intros Hh Hw.
  destruct (loop_once target st a) as [[Hc _]|((H0 & H1) & _)]; [congruence | lia].
Qed.

(** ** Side conditions by computation *)

Lemma distinct_NoDup l : distinct l = true -> NoDup l.
Proof.
  induction l as [|x l IH]; cbn [distinct]; intros H; constructor.
  - apply andb_prop in H as [H _]. intros Hin.
    assert (E : existsb (checkUIDsMatch x) l = true).
    { apply existsb_exists. exists x. split; [assumption | apply checkUIDsMatch_refl]. }
    now rewrite E in H.
  - apply andb_prop in H as [_ H]. now apply IH.
Qed.

Lemma absent_not_In x l : existsb (checkUIDsMatch x) l = false -> ~ In x l.
Proof.
  intros H Hin.
  assert (E : existsb (checkUIDsMatch x) l = true).
  { apply existsb_exists. exists x. split; [assumption | apply checkUIDsMatch_refl]. }
  congruence.
Qed.

(** ** What the sketch does where it departs from the claims *)

(** What a 4-byte card leaves in the scanned buffer: its four bytes, and the
    bytes 4..6 of whatever was scanned before. *)
Lemma presented_Card4 c0 c1 c2 c3 st :
  presented (Card4 c0 c1 c2 c3) st =
  UID c0 c1 c2 c3 (u4 (_scannedUIDBuffer st)) (u5 (_scannedUIDBuffer st))
      (u6 (_scannedUIDBuffer st)).
Proof. reflexivity. Qed.

(** The recycling branch in general: the identifier goes to the seven cells
    from [k * 7 + 1] on, which is slot [k + 1], not the nulled slot [k]. *)
Lemma recycle_writes_following_slot c st k :
  _adminMode st = true ->
  presented c st <> _masterUIDEntry ->
  Lookup (rom st) (presented c st) = None ->
  firstNull (rom st) = Some k ->
  rom (loop (Some c) st) = storeUID (slotAddress (k + 1)) (presented c st) (rom st).
Proof.
  intros Ha Hm Hl Hn.
  destruct (loop_other_admin c st Ha Hm) as (_ & _ & ->).
  rewrite Hl, Hn. unfold slotAddress. f_equal. lia.
Qed.

(** The clearing loop in general: the cells 7..1023 receive the bytes that
    lie behind the 7-byte constant in data memory. *)
Lemma wipe_copies_data_memory c st a :
  _adminMode st = true ->
  presented c st = _masterUIDEntry ->
  7 <= a < 1024 ->
  EEPROM.read (rom (loop (Some c) st)) a = past_null st a.
Proof.
  intros Ha Hm Hr.
  destruct (master_admin c st Ha Hm) as (_ & _ & H).
  unfold EEPROM.read. rewrite H. unfold nullUIDEntry_at.
  destruct (Z.leb_spec 1 a), (Z.ltb_spec a 1024), (Z.ltb_spec a 7); cbn; auto; lia.
Qed.

(** The first slot that holds [id] is the one [findEntry] returns. *)
Lemma findEntry_first e id n slot a k :
  slot <= k < slot + Z.of_nat n ->
  entryAt e (a + 7 * (k - slot)) = id ->
  (forall j, slot <= j < k -> entryAt e (a + 7 * (j - slot)) <> id) ->
  findEntry e id n slot a = Some k.
Proof.
  intros Hk Hid Hlow.
  destruct (findEntry e id n slot a) as [k'|] eqn:E.
  - apply findEntry_Some in E as (Hk' & Hid' & Hlow').
    destruct (Z.lt_trichotomy k' k) as [H|[H|H]].
    + destruct (Hlow k' ltac:(lia) Hid').
    + now subst.
    + destruct (Hlow' k ltac:(lia) Hid).
  - exfalso. apply (proj1 (findEntry_None e id n slot a) E k Hk Hid).
Qed.

Lemma header_storeUID a x e : 1 <= a -> header (storeUID a x e) = header e.
Proof.
  intros Ha. unfold header, EEPROM.read. now rewrite storeUID_cells_out by lia.
Qed.

(** Where saving works: with no nulled slot among 1..count and room left, the
    card goes to slot count + 1, the count byte is raised, and the lookup that
    follows returns that slot. *)
Lemma appended_card_found c st :
  _adminMode st = true ->
  presented c st <> _masterUIDEntry ->
  Lookup (rom st) (presented c st) = None ->
  firstNull (rom st) = None ->
  header (rom st) < 145 ->
  let st' := loop (Some c) st in
  entryAt (rom st') (slotAddress (header (rom st) + 1)) = presented c st /\
  header (rom st') = header (rom st) + 1 /\
  Lookup (rom st') (presented c st) = Some (header (rom st) + 1).
Proof.
  intros Ha Hm Hl Hn Hh st'.
  pose proof (header_bounds (rom st)) as Hb.
  assert (Hrom : rom st' =
                 EEPROM.write
                   (storeUID (header (rom st) * 7 + 1) (presented c st) (rom st))
                   0 (byte.of_Z (header (rom st) + 1))).
  { subst st'. destruct (loop_other_admin c st Ha Hm) as (_ & _ & ->).
    rewrite Hl, Hn.
    destruct (Z.ltb_spec (header (rom st)) 145); [reflexivity | lia]. }
  assert (Hhd : header (rom st') = header (rom st) + 1).
  { rewrite Hrom. unfold header at 1, EEPROM.read, EEPROM.write; cbn [cells Z.eqb].
    apply unsigned_of_Z_small. lia. }
  assert (Hent : entryAt (rom st') (slotAddress (header (rom st) + 1)) = presented c st).
  { rewrite Hrom. unfold slotAddress. rewrite entryAt_write_header by lia.
    replace (1 + (header (rom st) + 1 - 1) * 7) with (header (rom st) * 7 + 1) by lia.
    apply storeUID_entryAt. }
  repeat split; try assumption.
  unfold Lookup. rewrite Hhd. apply findEntry_first.
  - lia.
  - unfold slotAddress in Hent.
    now replace (1 + 7 * (header (rom st) + 1 - 1))
      with (1 + (header (rom st) + 1 - 1) * 7) by lia.
  - intros j Hj. rewrite Hrom, entryAt_write_header by lia.
    rewrite storeUID_entryAt_other by lia.
    apply (proj1 (findEntry_None _ _ _ 1 1) Hl). lia.
Qed.

(** Where saving fails: when the lowest nulled slot is the last one counted,
    the card lands behind the counted slots and the lookup that follows does
    not find it. *)
Lemma recycled_last_slot_not_found c st :
  _adminMode st = true ->
  presented c st <> _masterUIDEntry ->
  Lookup (rom st) (presented c st) = None ->
  firstNull (rom st) = Some (header (rom st)) ->
  let st' := loop (Some c) st in
  messages st' = CardSaved :: messages st /\
  header (rom st') = header (rom st) /\
  Lookup (rom st') (presented c st) = None.
Proof.
  intros Ha Hm Hl Hn st'.
  assert (Hpos : 1 <= header (rom st)).
  { unfold firstNull in Hn. apply findEntry_Some in Hn. lia. }
  assert (Hrom : rom st' =
                 storeUID (header (rom st) * 7 + 1) (presented c st) (rom st)).
  { subst st'. rewrite (recycle_writes_following_slot c st _ Ha Hm Hl Hn).
    unfold slotAddress. f_equal. lia. }
  assert (Hhd : header (rom st') = header (rom st)).
  { rewrite Hrom. apply header_storeUID. lia. }
  split; [|split; [exact Hhd|]].
  - subst st'. destruct (loop_other_admin c st Ha Hm) as (_ & -> & _).
    now rewrite Hl, Hn.
  - unfold Lookup. rewrite Hhd. apply findEntry_None. intros j Hj.
    rewrite Hrom, storeUID_entryAt_other by lia.
    apply (proj1 (findEntry_None _ _ _ 1 1) Hl). lia.
Qed.

(** * The claims *)

Ltac by_computation := vm_compute; reflexivity.
Ltac differs := apply checkUIDsMatch_false_iff; by_computation.

(** C1 (the sketch departs from it).  Count byte 1, slot 1 nulled, admin mode
    on, and a card that is not stored: slot 1 is the lowest nulled slot, yet
    the seven bytes go to slot 2, slot 1 stays nulled, and the count byte
    stays 1. *)
Theorem recycle_misses_nulled_slot :
  let st' := loop (Some (Card7 cardB)) onceRemoved in
  _adminMode onceRemoved = true /\
  header (rom onceRemoved) = 1 /\
  firstNull (rom onceRemoved) = Some 1 /\
  Lookup (rom onceRemoved) cardB = None /\
  messages st' = CardSaved :: messages onceRemoved /\
  entryAt (rom st') (slotAddress 1) = _nullUIDEntry /\
  entryAt (rom st') (slotAddress 2) = cardB /\
  header (rom st') = 1.
Proof. vm_compute. repeat split. Qed.

(** C2 (the sketch departs from it).  Master card twice on the booted sketch,
    where zeros lie behind [_nullUIDEntry] in data memory: the count byte is 0
    and the cells 1..6 hold 0xFF, but the last byte of slot 1 and the first
    byte of slot 145 hold 0x00, not 0xFF. *)
Theorem wipe_leaves_foreign_bytes :
  let st' := run [master; master] booted in
  messages st' = [MasterClear; MasterEnter] /\
  header (rom st') = 0 /\
  map (EEPROM.read (rom st')) [1; 2; 3; 4; 5; 6] = repeat (byte.of_Z 255) 6 /\
  EEPROM.read (rom st') 7 = byte.of_Z 0 /\
  EEPROM.read (rom st') (slotAddress 145) = byte.of_Z 0 /\
  entryAt (rom st') (slotAddress 1) <> _nullUIDEntry.
Proof. vm_compute. repeat split. discriminate. Qed.

(** C3 (the sketch departs from it).  In the same situation as for C1, with a
    nulled slot to recycle, the card is reported saved, but the lookup that
    follows does not find it, and the card is denied when scanned next. *)
Theorem saved_card_not_found :
  let st' := loop (Some (Card7 cardB)) onceRemoved in
  firstNull (rom onceRemoved) = Some 1 /\
  messages st' = CardSaved :: messages onceRemoved /\
  Lookup (rom st') cardB = None /\
  _adminMode st' = false /\
  messages (loop (Some (Card7 cardB)) st') = NotFoundDenied :: messages st'.
Proof. vm_compute. repeat split. Qed.

(** C4.  Every physical write that one pass of [loop] makes, whatever the
    reader reports and whatever the state, stores a byte that differs from the
    byte the cell held: the writes of the clearing loop, of a removal, of a
    recycled and of an appended entry go through [eepromSafeWrite], and the
    write of the count byte, which does not, always stores the count read at
    the start of the pass plus one.  So a cell whose byte is the same after
    the pass as before has received no physical write: its write count has
    not grown. *)
Theorem loop_writes_only_changes target st :
  grows changing (rom st) (rom (loop target st)) /\
  forall a,
    writeCount (rom (loop target st)) a = writeCount (rom st) a \/
    cells (rom (loop target st)) a <> cells (rom st) a.
Proof.
  split; [apply loop_grows|].
  intros a. destruct (loop_once target st a) as [[Hc _]|(_ & _ & Hv)]; auto.
Qed.

(** C5 (the sketch departs from it).  A 7-byte card and then the 4-byte card
    9,9,9,9 on the booted sketch: the identifier compared and stored for the
    second card is 9,9,9,9,5,6,7, with the last three bytes of the first card,
    and not 9,9,9,9,0,0,0. *)
Theorem short_uid_keeps_stale_bytes :
  let st := loop (Some (Card7 cardA)) booted in
  let c := Card4 (byte.of_Z 9) (byte.of_Z 9) (byte.of_Z 9) (byte.of_Z 9) in
  _scannedUIDBuffer booted = zeroUID /\
  presented c st =
  UID (byte.of_Z 9) (byte.of_Z 9) (byte.of_Z 9) (byte.of_Z 9)
      (byte.of_Z 5) (byte.of_Z 6) (byte.of_Z 7) /\
  _scannedUIDBuffer (loop (Some c) st) = presented c st /\
  presented c st <>
  UID (byte.of_Z 9) (byte.of_Z 9) (byte.of_Z 9) (byte.of_Z 9)
      (byte.of_Z 0) (byte.of_Z 0) (byte.of_Z 0).
Proof. vm_compute. repeat split. discriminate. Qed.

(** C6.  A card other than the master, scanned while admin mode is on, ends
    the pass with admin mode off, in each of the three outcomes: the card was
    found and its entry removed, the card was saved, or the store was full. *)
Theorem admin_scan_returns_to_normal c st :
  _adminMode st = true ->
  presented c st <> _masterUIDEntry ->
  _adminMode (loop (Some c) st) = false /\
  messages (loop (Some c) st) =
  match Lookup (rom st) (presented c st) with
  | Some _ => FoundRemoved
  | None =>
      match firstNull (rom st) with
      | Some _ => CardSaved
      | None => if header (rom st) <? 145 then CardSaved else OutOfSpace
      end
  end :: messages st.
Proof.
  intros Ha Hm.
  destruct (loop_other_admin c st Ha Hm) as (Hadm & Hmsg & _).
  now split.
Qed.

(** A removal: [cardA] scanned in admin mode on the store that holds it. *)
Lemma admin_scan_returns_to_normal_witness :
  _adminMode oneSavedAdmin = true /\
  presented (Card7 cardA) oneSavedAdmin <> _masterUIDEntry /\
  (_adminMode (loop (Some (Card7 cardA)) oneSavedAdmin) = false /\
   messages (loop (Some (Card7 cardA)) oneSavedAdmin) =
   match Lookup (rom oneSavedAdmin) (presented (Card7 cardA) oneSavedAdmin) with
   | Some _ => FoundRemoved
   | None =>
       match firstNull (rom oneSavedAdmin) with
       | Some _ => CardSaved
       | None => if header (rom oneSavedAdmin) <? 145 then CardSaved else OutOfSpace
       end
   end :: messages oneSavedAdmin).
Proof.
  split; [by_computation | split; [differs|]].
  apply admin_scan_returns_to_normal; [by_computation | differs].
Defined.

(** C7.  From any state with admin mode off, two master cards in a row (the
    first turns admin mode on, the second clears the database) leave the count
    byte at 0 and admin mode off, and after them the lookup of any identifier
    whatever, so of each one stored before, finds nothing. *)
Theorem double_master_wipes c1 c2 st :
  _adminMode st = false ->
  presented c1 st = _masterUIDEntry ->
  presented c2 (loop (Some c1) st) = _masterUIDEntry ->
  let st2 := run [Some c1; Some c2] st in
  header (rom st2) = 0 /\
  _adminMode st2 = false /\
  messages st2 = MasterClear :: MasterEnter :: messages st /\
  forall id, Lookup (rom st2) id = None.
Proof.
  intros Ha H1 H2. cbn [run fold_left].
  destruct (master_normal c1 st Ha H1) as (Ha1 & Hr1 & _ & Hm1).
  destruct (master_admin c2 _ Ha1 H2) as (Ha2 & Hm2 & Hc2).
  assert (Hh : header (rom (loop (Some c2) (loop (Some c1) st))) = 0).
  { unfold header, EEPROM.read. rewrite Hc2. cbn. reflexivity. }
  repeat split; auto.
  - now rewrite Hm2, Hm1.
  - intros id. now apply Lookup_empty.
Qed.

(** The master card twice on the store that holds [cardA]. *)
Lemma double_master_wipes_witness :
  _adminMode oneSaved = false /\
  presented (Card7 _masterUIDEntry) oneSaved = _masterUIDEntry /\
  presented (Card7 _masterUIDEntry) (loop master oneSaved) = _masterUIDEntry /\
  (let st2 := run [master; master] oneSaved in
   header (rom st2) = 0 /\
   _adminMode st2 = false /\
   messages st2 = MasterClear :: MasterEnter :: messages oneSaved /\
   forall id, Lookup (rom st2) id = None).
Proof.
  split; [by_computation | split; [reflexivity | split; [reflexivity|]]].
  apply (double_master_wipes (Card7 _masterUIDEntry) (Card7 _masterUIDEntry) oneSaved);
    [by_computation | reflexivity | reflexivity].
Defined.

(** C8.  From a store whose count byte is 0, 145 distinct identifiers, none
    of them the null entry or the master, are all saved when each is presented
    in admin mode, with no removal in between; the store then holds them in the
    slots 1..145.  One more such identifier, presented the same way, is
    refused with the store-full message and changes nothing in the EEPROM. *)
Theorem capacity_boundary ids extra st :
  _adminMode st = false ->
  header (rom st) = 0 ->
  List.length ids = 145%nat ->
  NoDup (ids ++ [extra]) ->
  ~ In _nullUIDEntry (ids ++ [extra]) ->
  ~ In _masterUIDEntry (ids ++ [extra]) ->
  let full := run (enroll ids) st in
  messages full = List.concat (repeat [CardSaved; MasterEnter] 145) ++ messages st /\
  holds ids (rom full) /\
  messages (run (enroll [extra]) full) = OutOfSpace :: MasterEnter :: messages full /\
  rom (run (enroll [extra]) full) = rom full.
Proof.
  intros Ha Hh Hlen Hnd Hnull Hm full.
  assert (H0 : holds [] (rom st)).
  { split; [exact Hh | cbn; intros; lia]. }
  destruct (enroll_many ids [] st Ha H0) as (Ha1 & Hs1 & Hm1).
  - cbn [List.length]. lia.
  - cbn [app]. now apply NoDup_remove_1 in Hnd; rewrite app_nil_r in Hnd.
  - intros Hin. apply Hnull, in_or_app. now left.
  - intros Hin. apply Hm, in_or_app. now left.
  - cbn [app] in Hs1. fold full in Ha1, Hs1, Hm1. rewrite Hlen in Hm1.
    destruct (enroll_one ids extra full Ha1 Hs1) as (_ & Hm2 & Hr2).
    + apply NoDup_remove_2 in Hnd. now rewrite app_nil_r in Hnd.
    + intros Hin. apply Hnull, in_or_app. now left.
    + intros ->. apply Hm, in_or_app. right. now left.
    + assert (Hf : (header (rom full) <? 145) = false).
      { apply Z.ltb_ge. destruct Hs1 as [-> _]. lia. }
      rewrite Hf in Hm2, Hr2. auto.
Qed.

(** The cards numbered 0..144 fill the store; the card numbered 145 is refused. *)
Lemma capacity_boundary_witness :
  _adminMode booted = false /\
  header (rom booted) = 0 /\
  List.length (numbered 0 145) = 145%nat /\
  NoDup (numbered 0 145 ++ [extraCard]) /\
  ~ In _nullUIDEntry (numbered 0 145 ++ [extraCard]) /\
  ~ In _masterUIDEntry (numbered 0 145 ++ [extraCard]) /\
  (let full := run (enroll (numbered 0 145)) booted in
   messages full =
   List.concat (repeat [CardSaved; MasterEnter] 145) ++ messages booted /\
   holds (numbered 0 145) (rom full) /\
   messages (run (enroll [extraCard]) full) = OutOfSpace :: MasterEnter :: messages full /\
   rom (run (enroll [extraCard]) full) = rom full).
Proof.
  assert (Hd : NoDup (numbered 0 145 ++ [extraCard]))
    by (apply distinct_NoDup; by_computation).
  assert (Hn : ~ In _nullUIDEntry (numbered 0 145 ++ [extraCard]))
    by (apply absent_not_In; by_computation).
  assert (Hm : ~ In _masterUIDEntry (numbered 0 145 ++ [extraCard]))
    by (apply absent_not_In; by_computation).
  do 6 (split; [first [exact Hd | exact Hn | exact Hm | by_computation]|]).
  apply capacity_boundary; first [exact Hd | exact Hn | exact Hm | by_computation].
Defined.

(** C9.  When a card other than the master is scanned in admin mode, is not
    found, no nulled entry lies among the slots 1..count and the count is 145
    or more, the pass reports that the store is full and the EEPROM is left as
    it was: the count byte, every record byte and the write log. *)
Theorem store_full_writes_nothing c st :
  _adminMode st = true ->
  presented c st <> _masterUIDEntry ->
  Lookup (rom st) (presented c st) = None ->
  firstNull (rom st) = None ->
  145 <= header (rom st) ->
  messages (loop (Some c) st) = OutOfSpace :: messages st /\
  rom (loop (Some c) st) = rom st.
Proof.
  intros Ha Hm Hl Hn Hh.
  destruct (loop_other_admin c st Ha Hm) as (_ & -> & ->).
  rewrite Hl, Hn.
  destruct (Z.ltb_spec (header (rom st)) 145); [lia | auto].
Qed.

(** [cardB] scanned in admin mode on a full store. *)
Lemma store_full_writes_nothing_witness :
  _adminMode fullAdmin = true /\
  presented (Card7 cardB) fullAdmin <> _masterUIDEntry /\
  Lookup (rom fullAdmin) (presented (Card7 cardB) fullAdmin) = None /\
  firstNull (rom fullAdmin) = None /\
  145 <= header (rom fullAdmin) /\
  (messages (loop (Some (Card7 cardB)) fullAdmin) = OutOfSpace :: messages fullAdmin /\
   rom (loop (Some (Card7 cardB)) fullAdmin) = rom fullAdmin).
Proof.
  assert (H : 145 <= header (rom fullAdmin)) by (apply Z.leb_le; by_computation).
  do 5 (split; [first [exact H | by_computation | differs]|]).
  apply store_full_writes_nothing; first [exact H | by_computation | differs].
Defined.

(** C10.  A card other than the master, scanned while admin mode is off,
    leaves the EEPROM as it was, cells and write log alike, whether the door
    is unlocked (the card is found) or access is denied (it is not found, or
    the count byte is zero); the message printed tells the two apart. *)
Theorem normal_scan_writes_nothing c st :
  _adminMode st = false ->
  presented c st <> _masterUIDEntry ->
  rom (loop (Some c) st) = rom st /\
  messages (loop (Some c) st) =
  match Lookup (rom st) (presented c st) with
  | Some _ => FoundUnlock
  | None => if 0 <? header (rom st) then NotFoundDenied else EmptyDenied
  end :: messages st.
Proof.
  intros Ha Hm.
  destruct (loop_Some c st) as (st1 & -> & Hb & Ha1 & Hr & _ & Hmsg).
  rewrite scanned_other by congruence.
  destruct (otherCard_normal (emit (CardDetected (_scannedUIDBuffer st1)) st1))
    as (Hrom & _ & Hout); [fields; congruence|].
  rewrite Hrom, Hout, messages_emit. fields. rewrite Hr, Hb, Hmsg. auto.
Qed.

(** The card that unlocks the door: [cardA] scanned on the store that holds it. *)
Lemma normal_scan_writes_nothing_witness :
  _adminMode oneSaved = false /\
  presented (Card7 cardA) oneSaved <> _masterUIDEntry /\
  (rom (loop (Some (Card7 cardA)) oneSaved) = rom oneSaved /\
   messages (loop (Some (Card7 cardA)) oneSaved) =
   match Lookup (rom oneSaved) (presented (Card7 cardA) oneSaved) with
   | Some _ => FoundUnlock
   | None => if 0 <? header (rom oneSaved) then NotFoundDenied else EmptyDenied
   end :: messages oneSaved).
Proof.
  split; [by_computation | split; [differs|]].
  apply normal_scan_writes_nothing; [by_computation | differs].
Defined.

(** * Further properties of the sketch *)

(** ** Lookup, slot by slot *)

Lemma header_nat e : Z.of_nat (Z.to_nat (header e)) = header e.
Proof. pose proof (header_bounds e). lia. Qed.

Lemma slotAddress_eq k : 1 + 7 * (k - 1) = slotAddress k.
Proof. unfold slotAddress. lia. Qed.

(** A lookup that succeeds returns the first of the counted slots that holds
    the identifier. *)
Lemma Lookup_Some e id k :
  Lookup e id = Some k ->
  1 <= k <= header e /\ entryAt e (slotAddress k) = id /\
  forall j, 1 <= j < k -> entryAt e (slotAddress j) <> id.
Proof.
  unfold Lookup. intros H. apply findEntry_Some in H as (Hk & Hid & Hlow).
  rewrite header_nat in Hk. rewrite slotAddress_eq in Hid.
  repeat split; try lia; [exact Hid|].
  intros j Hj. rewrite <- slotAddress_eq. now apply Hlow.
Qed.

(** A lookup fails exactly when none of the counted slots holds the
    identifier. *)
Lemma Lookup_None e id :
  Lookup e id = None <->
  forall j, 1 <= j <= header e -> entryAt e (slotAddress j) <> id.
Proof.
  unfold Lookup. rewrite findEntry_None, header_nat. split; intros H j Hj.
  - rewrite <- slotAddress_eq. apply H. lia.
  - rewrite slotAddress_eq. apply H. lia.
Qed.

Lemma Lookup_first e id k :
  1 <= k <= header e ->
  entryAt e (slotAddress k) = id ->
  (forall j, 1 <= j < k -> entryAt e (slotAddress j) <> id) ->
  Lookup e id = Some k.
Proof.
  intros Hk Hid Hlow. unfold Lookup. apply findEntry_first.
  - rewrite header_nat. lia.
  - now rewrite slotAddress_eq.
  - intros j Hj. rewrite slotAddress_eq. now apply Hlow.
Qed.

(** Two stores that agree on the count byte and on the counted slots up to
    the one found give the same lookup. *)
Lemma Lookup_stable e e' id k :
  Lookup e id = Some k ->
  header e <= header e' ->
  (forall j, 1 <= j <= k -> entryAt e' (slotAddress j) = entryAt e (slotAddress j)) ->
  Lookup e' id = Some k.
Proof.
  intros H Hh Hsame. apply Lookup_Some in H as (Hk & Hid & Hlow).
  apply Lookup_first.
  - lia.
  - rewrite Hsame by lia. exact Hid.
  - intros j Hj. rewrite Hsame by lia. now apply Hlow.
Qed.

(** ** The whole state after one pass *)

Lemma eraseLoop_cells v n a e x :
  cells (for_ n a (fun w => eepromSafeWrite w v) e) x =
  if (a <=? x) && (x <? a + Z.of_nat n) then v else cells e x.
Proof. apply (wipeLoop_cells (fun _ => v)). Qed.

(** What a card other than the master leaves in the output, in the scanned
    buffer and in the data memory. *)
Lemma otherCard_out st :
  _scannedUIDBuffer (otherCard st) = _scannedUIDBuffer st /\
  past_null (otherCard st) = past_null st /\
  out (otherCard st) =
  match _adminMode st, Lookup (rom st) (_scannedUIDBuffer st) with
  | false, Some _ =>
      [Motor false false 0; Delay 1250; Motor false true 1; SetLED 1; Delay 500;
       Motor false false 0; Delay 1250; Motor true false 1; SetLED 3;
       Println FoundUnlock]
  | false, None =>
      [Delay 1250; SetLED 1;
       Println (if 0 <? header (rom st) then NotFoundDenied else EmptyDenied)]
  | true, Some _ => [Delay 2000; SetLED 5; Println FoundRemoved]
  | true, None =>
      match firstNull (rom st) with
      | Some _ => [Delay 2000; SetLED 6; Println CardSaved]
      | None =>
          if header (rom st) <? 145 then [Delay 2000; SetLED 6; Println CardSaved]
          else [Delay 1250; SetLED 1; Println OutOfSpace]
      end
  end ++ out st.
Proof.
  pose proof (otherCard_spec st) as H. cbv zeta in H.
  destruct (Lookup (rom st) (_scannedUIDBuffer st)) as [k|].
  - rewrite H. unfold entryMatched. fields.
    destruct (_adminMode st); cbn [negb].
    + rewrite eraseLoop_eq. fields. repeat split; reflexivity.
    + fields. repeat split; reflexivity.
  - destruct H as [x H]. rewrite H.
    destruct (_adminMode st); cbn [negb].
    + destruct (eepromWrite_spec
                  (set_read x (set_entryCount (EEPROM.read (rom st) 0) st))) as [y Hy].
      rewrite Hy. fields. unfold firstNull, header.
      destruct (findEntry _ _ _ _ _) as [k|].
      * rewrite writeScanned_eq. fields. repeat split; reflexivity.
      * destruct (byte.unsigned (EEPROM.read (rom st) 0) <? 145).
        -- rewrite writeScanned_eq. fields. repeat split; reflexivity.
        -- fields. repeat split; reflexivity.
    + fields. repeat split; reflexivity.
Qed.

Lemma clearDatabase_out st :
  _scannedUIDBuffer (clearDatabase st) = _scannedUIDBuffer st /\
  past_null (clearDatabase st) = past_null st /\
  out (clearDatabase st) = [Delay 2000; SetLED 7; Println MasterClear] ++ out st.
Proof.
  unfold clearDatabase. generalize 1023%nat; intros n.
  rewrite wipeLoop_eq. fields. repeat split; reflexivity.
Qed.

(** The output of [scanned], newest event first. *)
Lemma scanned_out st :
  _scannedUIDBuffer (scanned st) = _scannedUIDBuffer st /\
  past_null (scanned st) = past_null st /\
  out (scanned st) =
  (if checkUIDsMatch (_scannedUIDBuffer st) _masterUIDEntry then
     if _adminMode st then [Delay 2000; SetLED 7; Println MasterClear]
     else [Delay 1250; SetLED 0; Println MasterEnter]
   else
     match _adminMode st, Lookup (rom st) (_scannedUIDBuffer st) with
     | false, Some _ =>
         [Motor false false 0; Delay 1250; Motor false true 1; SetLED 1; Delay 500;
          Motor false false 0; Delay 1250; Motor true false 1; SetLED 3;
          Println FoundUnlock]
     | false, None =>
         [Delay 1250; SetLED 1;
          Println (if 0 <? header (rom st) then NotFoundDenied else EmptyDenied)]
     | true, Some _ => [Delay 2000; SetLED 5; Println FoundRemoved]
     | true, None =>
         match firstNull (rom st) with
         | Some _ => [Delay 2000; SetLED 6; Println CardSaved]
         | None =>
             if header (rom st) <? 145 then [Delay 2000; SetLED 6; Println CardSaved]
             else [Delay 1250; SetLED 1; Println OutOfSpace]
         end
     end)
    ++ CardDetected (_scannedUIDBuffer st) :: out st.
Proof.
  destruct (checkUIDsMatch (_scannedUIDBuffer st) _masterUIDEntry) eqn:E.
  - apply checkUIDsMatch_iff in E. rewrite (scanned_master st E). cbv zeta. fields.
    destruct (_adminMode st); cbn [negb].
    + destruct (clearDatabase_out (emit (CardDetected (_scannedUIDBuffer st)) st))
        as (-> & -> & ->). repeat split; reflexivity.
    + fields. repeat split; reflexivity.
  - apply checkUIDsMatch_false_iff in E. rewrite (scanned_other st E).
    destruct (otherCard_out (emit (CardDetected (_scannedUIDBuffer st)) st))
      as (-> & -> & ->). fields. repeat split; reflexivity.
Qed.

(** The state [scanned] starts from in a pass with a card in the field. *)
Lemma loop_Some_out c st :
  exists st1,
    loop (Some c) st = scanned st1 /\
    _scannedUIDBuffer st1 = presented c st /\
    _adminMode st1 = _adminMode st /\
    rom st1 = rom st /\
    past_null st1 = past_null st /\
    out st1 = SetLED (if _adminMode st then 4 else 2) :: out st.
Proof.
  unfold loop, presented.
  destruct (_adminMode st) eqn:Ea; destruct c as [c0 c1 c2 c3|u];
    cbn [negb readPassiveTargetID fst snd];
    eexists; (split; [reflexivity|]); fields; auto.
Qed.

(** The scanned buffer is written by the reader alone. *)
Lemma loop_buffer target st :
  _scannedUIDBuffer (loop target st) =
  match target with
  | Some c => presented c st
  | None => _scannedUIDBuffer st
  end.
Proof.
  destruct target as [c|].
  - destruct (loop_Some_out c st) as (st1 & -> & Hb & _).
    destruct (scanned_out st1) as (-> & _). exact Hb.
  - unfold loop. destruct (_adminMode st); reflexivity.
Qed.

(** The same card scanned again gives the same identifier. *)
Lemma presented_again c st : presented c (loop (Some c) st) = presented c st.
Proof.
  destruct c as [c0 c1 c2 c3|u]; [|reflexivity].
  rewrite !presented_Card4, loop_buffer, presented_Card4. reflexivity.
Qed.

(** A card other than the master while admin mode is off, for one pass. *)
Lemma loop_other_normal c st :
  _adminMode st = false ->
  presented c st <> _masterUIDEntry ->
  rom (loop (Some c) st) = rom st /\
  _adminMode (loop (Some c) st) = false /\
  messages (loop (Some c) st) =
  match Lookup (rom st) (presented c st) with
  | Some _ => FoundUnlock
  | None => if 0 <? header (rom st) then NotFoundDenied else EmptyDenied
  end :: messages st.
Proof.
  intros Ha Hm.
  destruct (loop_Some c st) as (st1 & -> & Hb & Ha1 & Hr & _ & Hmsg).
  rewrite scanned_other by congruence.
  destruct (otherCard_normal (emit (CardDetected (_scannedUIDBuffer st1)) st1))
    as (Hrom & Hadm & Hout); [fields; congruence|].
  rewrite Hrom, Hadm, Hout, messages_emit. fields. rewrite Hr, Hb, Hmsg. auto.
Qed.

(** ** Comparison and the guarded write *)

(** X1.  [checkUIDsMatch] answers true exactly when the two arrays agree at
    every one of the seven indices: all bytes count, none is skipped. *)
Theorem checkUIDsMatch_bytewise x y :
  checkUIDsMatch x y = true <->
  forall i, 0 <= i < 7 -> uid_get x i = uid_get y i.
Proof.
  rewrite checkUIDsMatch_iff. split.
  - now intros ->.
  - intros H. destruct x as [x0 x1 x2 x3 x4 x5 x6], y as [y0 y1 y2 y3 y4 y5 y6].
    pose proof (H 0 ltac:(lia)) as H0. pose proof (H 1 ltac:(lia)) as H1.
    pose proof (H 2 ltac:(lia)) as H2. pose proof (H 3 ltac:(lia)) as H3.
    pose proof (H 4 ltac:(lia)) as H4. pose proof (H 5 ltac:(lia)) as H5.
    pose proof (H 6 ltac:(lia)) as H6.
    cbn in H0, H1, H2, H3, H4, H5, H6. congruence.
Qed.

(** X2.  After [eepromSafeWrite] the addressed cell holds the byte and every
    other cell is as before; the write count of the addressed cell grows by
    one if the byte differed and not at all if it was already there, and no
    other write count moves. *)
Theorem eepromSafeWrite_effect pAddress pWriteByte e a :
  cells (eepromSafeWrite pAddress pWriteByte e) a =
  (if a =? pAddress then pWriteByte else cells e a) /\
  writeCount (eepromSafeWrite pAddress pWriteByte e) a =
  (if (a =? pAddress) && negb (Byte.eqb (cells e pAddress) pWriteByte)
   then S (writeCount e a) else writeCount e a).
Proof.
  split; [apply eepromSafeWrite_cells|].
  unfold eepromSafeWrite, EEPROM.read.
  destruct (Byte.eqb (cells e pAddress) pWriteByte); cbn [negb].
  - now rewrite andb_false_r.
  - rewrite writeCount_write, andb_true_r, Z.eqb_sym. reflexivity.
Qed.

(** ** Admin mode *)

(** X3.  Admin mode after a pass: unchanged when the reader reports no card;
    otherwise on exactly when the master card was scanned while it was off.
    Every other scan, and the master card scanned while it was on, leaves it
    off. *)
Theorem admin_mode_after_pass target st :
  _adminMode (loop target st) =
  match target with
  | None => _adminMode st
  | Some c =>
      checkUIDsMatch (presented c st) _masterUIDEntry && negb (_adminMode st)
  end.
Proof.
  destruct target as [c|].
  - destruct (checkUIDsMatch (presented c st) _masterUIDEntry) eqn:E;
      destruct (_adminMode st) eqn:Ea; cbn [andb negb].
    + apply checkUIDsMatch_iff in E. now destruct (master_admin c st Ea E).
    + apply checkUIDsMatch_iff in E. now destruct (master_normal c st Ea E).
    + apply checkUIDsMatch_false_iff in E. now destruct (loop_other_admin c st Ea E).
    + apply checkUIDsMatch_false_iff in E.
      now destruct (loop_other_normal c st Ea E) as (_ & ? & _).
  - unfold loop. destruct (_adminMode st) eqn:Ea; cbn; exact Ea.
Qed.

(** X4.  The master card scanned while admin mode is off turns admin mode on
    and leaves the EEPROM as it was, cells and write log, so every lookup
    answers as before. *)
Theorem master_card_enters_admin c st :
  _adminMode st = false ->
  presented c st = _masterUIDEntry ->
  _adminMode (loop (Some c) st) = true /\
  rom (loop (Some c) st) = rom st /\
  messages (loop (Some c) st) = MasterEnter :: messages st /\
  forall id, Lookup (rom (loop (Some c) st)) id = Lookup (rom st) id.
Proof.
  intros Ha Hm. destruct (master_normal c st Ha Hm) as (H1 & H2 & _ & H3).
  repeat split; try assumption. intros id. now rewrite H2.
Qed.

Lemma master_card_enters_admin_witness :
  _adminMode oneSaved = false /\
  presented (Card7 _masterUIDEntry) oneSaved = _masterUIDEntry /\
  (_adminMode (loop (Some (Card7 _masterUIDEntry)) oneSaved) = true /\
   rom (loop (Some (Card7 _masterUIDEntry)) oneSaved) = rom oneSaved /\
   messages (loop (Some (Card7 _masterUIDEntry)) oneSaved) =
   MasterEnter :: messages oneSaved /\
   forall id, Lookup (rom (loop (Some (Card7 _masterUIDEntry)) oneSaved)) id =
              Lookup (rom oneSaved) id).
Proof.
  split; [by_computation | split; [reflexivity|]].
  apply master_card_enters_admin; [by_computation | reflexivity].
Defined.

(** ** The access decision *)

(** X5.  With admin mode off, a card other than the master unlocks the door
    exactly when one of the slots 1..count holds its identifier; slots behind
    the count byte are not considered. *)
Theorem unlock_iff_stored c st :
  _adminMode st = false ->
  presented c st <> _masterUIDEntry ->
  (messages (loop (Some c) st) = FoundUnlock :: messages st <->
   exists k, 1 <= k <= header (rom st) /\
             entryAt (rom st) (slotAddress k) = presented c st).
Proof.
  intros Ha Hm. destruct (loop_other_normal c st Ha Hm) as (_ & _ & ->).
  destruct (Lookup (rom st) (presented c st)) as [k|] eqn:El.
  - split; [intros _ | reflexivity].
    apply Lookup_Some in El as (Hk & Hid & _). now exists k.
  - split.
    + intros H. destruct (0 <? header (rom st)); discriminate.
    + intros (k & Hk & Hid). destruct (proj1 (Lookup_None _ _) El k Hk Hid).
Qed.

Lemma unlock_iff_stored_witness :
  _adminMode oneSaved = false /\
  presented (Card7 cardA) oneSaved <> _masterUIDEntry /\
  (messages (loop (Some (Card7 cardA)) oneSaved) = FoundUnlock :: messages oneSaved <->
   exists k, 1 <= k <= header (rom oneSaved) /\
             entryAt (rom oneSaved) (slotAddress k) = presented (Card7 cardA) oneSaved).
Proof.
  split; [by_computation | split; [differs|]].
  apply unlock_iff_stored; [by_computation | differs].
Defined.

(** X6.  What one pass with a card in the field prints and drives, in the
    order of time: the LED of the mode, the line with the scanned UID, and
    then the one outcome that applies, each with its message, LED mode and
    delay; the motor is driven only when the card is found with admin mode
    off, in the unlock direction, stopped, and after the pause in the lock
    direction and stopped again. *)
Theorem pass_output c st :
  rev (out (loop (Some c) st)) =
  rev (out st) ++
  SetLED (if _adminMode st then 4 else 2) ::
  CardDetected (presented c st) ::
  (if checkUIDsMatch (presented c st) _masterUIDEntry then
     if _adminMode st then [Println MasterClear; SetLED 7; Delay 2000]
     else [Println MasterEnter; SetLED 0; Delay 1250]
   else
     match _adminMode st, Lookup (rom st) (presented c st) with
     | false, Some _ =>
         [Println FoundUnlock; SetLED 3;
          Motor true false 1; Delay 1250; Motor false false 0;
          Delay 500; SetLED 1;
          Motor false true 1; Delay 1250; Motor false false 0]
     | false, None =>
         [Println (if 0 <? header (rom st) then NotFoundDenied else EmptyDenied);
          SetLED 1; Delay 1250]
     | true, Some _ => [Println FoundRemoved; SetLED 5; Delay 2000]
     | true, None =>
         match firstNull (rom st) with
         | Some _ => [Println CardSaved; SetLED 6; Delay 2000]
         | None =>
             if header (rom st) <? 145 then [Println CardSaved; SetLED 6; Delay 2000]
             else [Println OutOfSpace; SetLED 1; Delay 1250]
         end
     end).
Proof.
  destruct (loop_Some_out c st) as (st1 & -> & Hb & Ha & Hr & _ & Ho).
  destruct (scanned_out st1) as (_ & _ & ->).
  rewrite Hb, Ha, Hr, Ho, rev_app_distr. cbn [rev]. rewrite <- !app_assoc. cbn [app].
  do 3 f_equal.
  destruct (checkUIDsMatch (presented c st) _masterUIDEntry);
    destruct (_adminMode st); try reflexivity;
    destruct (Lookup (rom st) (presented c st)); try reflexivity.
  destruct (firstNull (rom st)); try reflexivity.
  destruct (header (rom st) <? 145); reflexivity.
Qed.

Lemma lastMotor_app l l' :
  lastMotor (l ++ l') =
  match lastMotor l with Some m => Some m | None => lastMotor l' end.
Proof.
  induction l as [|ev l IH]; [reflexivity|].
  destruct ev; cbn [app lastMotor]; auto.
Qed.

Lemma loop_lastMotor target st :
  lastMotor (out (loop target st)) = lastMotor (out st) \/
  lastMotor (out (loop target st)) = Some (false, false, 0).
Proof.
  destruct target as [c|].
  - destruct (loop_Some_out c st) as (st1 & -> & _ & _ & _ & _ & Ho).
    destruct (scanned_out st1) as (_ & _ & ->).
    rewrite lastMotor_app. cbn [lastMotor]. rewrite Ho. cbn [lastMotor].
    destruct (checkUIDsMatch _ _); destruct (_adminMode st1);
      try (left; reflexivity);
      destruct (Lookup _ _); try (left; reflexivity); try (right; reflexivity).
    destruct (firstNull _); try (left; reflexivity).
    destruct (_ <? _); left; reflexivity.
  - left. unfold loop. destruct (_adminMode st); reflexivity.
Qed.

(** X7.  No pass leaves the motor running: after any number of passes the
    newest motor command is the one that was newest before, or it is the stop
    command (both direction pins low, enable 0). *)
Theorem motor_never_left_running targets st :
  lastMotor (out (run targets st)) = lastMotor (out st) \/
  lastMotor (out (run targets st)) = Some (false, false, 0).
Proof.
  revert st. induction targets as [|t ts IH]; intros st; [now left|].
  change (run (t :: ts) st) with (run ts (loop t st)).
  destruct (IH (loop t st)) as [H|H]; [|now right].
  rewrite H. apply loop_lastMotor.
Qed.

(** ** The count byte *)

(** The count byte after one pass, case by case. *)
Lemma loop_header target st :
  header (rom (loop target st)) =
  match target with
  | None => header (rom st)
  | Some c =>
      if checkUIDsMatch (presented c st) _masterUIDEntry then
        if _adminMode st then 0 else header (rom st)
      else
        match _adminMode st, Lookup (rom st) (presented c st), firstNull (rom st) with
        | true, None, None =>
            if header (rom st) <? 145 then header (rom st) + 1 else header (rom st)
        | _, _, _ => header (rom st)
        end
  end.
Proof.
  pose proof (header_bounds (rom st)) as Hb.
  destruct target as [c|].
  - destruct (checkUIDsMatch (presented c st) _masterUIDEntry) eqn:E;
      destruct (_adminMode st) eqn:Ea.
    + apply checkUIDsMatch_iff in E. destruct (master_admin c st Ea E) as (_ & _ & H).
      unfold header, EEPROM.read. rewrite H. cbn. reflexivity.
    + apply checkUIDsMatch_iff in E.
      destruct (master_normal c st Ea E) as (_ & -> & _). reflexivity.
    + apply checkUIDsMatch_false_iff in E.
      destruct (loop_other_admin c st Ea E) as (_ & _ & ->).
      destruct (Lookup (rom st) (presented c st)) as [k|] eqn:El.
      * apply Lookup_Some in El as (Hk & _).
        unfold header at 1, EEPROM.read. rewrite eraseLoop_cells.
        unfold slotAddress.
        destruct (Z.leb_spec (1 + (k - 1) * 7) 0); [lia | reflexivity].
      * destruct (firstNull (rom st)) as [k|] eqn:En.
        -- unfold firstNull in En. apply findEntry_Some in En as (Hk & _).
           apply header_storeUID. lia.
        -- destruct (Z.ltb_spec (header (rom st)) 145); [|reflexivity].
           unfold header at 1, EEPROM.read, EEPROM.write; cbn [cells Z.eqb].
           apply unsigned_of_Z_small. lia.
    + apply checkUIDsMatch_false_iff in E.
      destruct (loop_other_normal c st Ea E) as (-> & _).
      now destruct (Lookup (rom st) (presented c st)), (firstNull (rom st)).
  - unfold loop. destruct (_adminMode st); reflexivity.
Qed.


(** X8.  The count byte after a pass: set to 0 when the database is cleared,
    raised by one when a card is appended (admin mode on, card not found, no
    nulled slot, count below 145), and unchanged in every other case: a
    removal does not lower it, a recycled slot does not raise it. *)
Theorem count_byte_after_pass target st :
  header (rom (loop target st)) =
  match target with
  | None => header (rom st)
  | Some c =>
      if checkUIDsMatch (presented c st) _masterUIDEntry then
        if _adminMode st then 0 else header (rom st)
      else
        match _adminMode st, Lookup (rom st) (presented c st), firstNull (rom st) with
        | true, None, None =>
            if header (rom st) <? 145 then header (rom st) + 1 else header (rom st)
        | _, _, _ => header (rom st)
        end
  end.
Proof. apply loop_header. Qed.

Lemma loop_header_bounded target st :
  header (rom st) <= 145 -> header (rom (loop target st)) <= 145.
Proof.
  intros H. rewrite loop_header.
  destruct target as [c|]; [|assumption].
  destruct (checkUIDsMatch (presented c st) _masterUIDEntry);
    destruct (_adminMode st); try lia;
    destruct (Lookup (rom st) (presented c st)); try lia;
    destruct (firstNull (rom st)); try lia.
  destruct (Z.ltb_spec (header (rom st)) 145); lia.
Qed.

(** X9.  A count byte of at most 145 stays at most 145 through any number of
    passes, whatever the reader reports. *)
Theorem count_byte_stays_bounded targets st :
  header (rom st) <= 145 -> header (rom (run targets st)) <= 145.
Proof.
  revert st. induction targets as [|t ts IH]; intros st H; [exact H|].
  change (run (t :: ts) st) with (run ts (loop t st)).
  apply IH, loop_header_bounded, H.
Qed.

Lemma count_byte_stays_bounded_witness :
  header (rom booted) <= 145 /\
  header (rom (run (enroll [cardA; cardB]) booted)) <= 145.
Proof.
  assert (H : header (rom booted) <= 145) by (apply Z.leb_le; by_computation).
  split; [exact H | apply count_byte_stays_bounded, H].
Defined.

(** X10.  While the count byte is at most 145 at the start, any number of
    passes writes only cells with addresses 0..1023, the cells the device
    has. *)
Theorem writes_stay_in_device targets st a :
  header (rom st) <= 145 ->
  writeCount (rom (run targets st)) a <> writeCount (rom st) a ->
  0 <= a < 1024.
Proof.
  revert st. induction targets as [|t ts IH]; intros st Hh Hw; [now destruct Hw|].
  change (run (t :: ts) st) with (run ts (loop t st)) in Hw.
  destruct (Nat.eq_dec (writeCount (rom (loop t st)) a) (writeCount (rom st) a))
    as [E|E].
  - apply (IH (loop t st)); [now apply loop_header_bounded | congruence].
  - now apply (loop_writes_in_device t st a).
Qed.

Lemma writes_stay_in_device_witness :
  header (rom booted) <= 145 /\
  writeCount (rom (run (enroll [cardA]) booted)) 7 <> writeCount (rom booted) 7 /\
  0 <= 7 < 1024.
Proof.
  assert (H : header (rom booted) <= 145) by (apply Z.leb_le; by_computation).
  assert (W : writeCount (rom (run (enroll [cardA]) booted)) 7 <>
              writeCount (rom booted) 7) by (vm_compute; discriminate).
  split; [exact H | split; [exact W|]].
  exact (writes_stay_in_device (enroll [cardA]) booted 7 H W).
Defined.

(** ** Removing a card *)

Lemma erase_entryAt a v e :
  entryAt (for_ 7 a (fun w => eepromSafeWrite w v) e) a = UID v v v v v v v.
Proof.
  unfold entryAt, EEPROM.read. rewrite !eraseLoop_cells. change (Z.of_nat 7) with 7.
  f_equal;
    match goal with
    | |- context [(?p <=? ?q) && (?q <? ?r)] =>
        destruct (Z.leb_spec p q), (Z.ltb_spec q r)
    end; cbn; try reflexivity; lia.
Qed.

Lemma erase_entryAt_other a v e b :
  b + 7 <= a \/ a + 7 <= b ->
  entryAt (for_ 7 a (fun w => eepromSafeWrite w v) e) b = entryAt e b.
Proof.
  intros H. unfold entryAt, EEPROM.read. rewrite !eraseLoop_cells.
  change (Z.of_nat 7) with 7.
  f_equal;
    match goal with
    | |- context [(?p <=? ?q) && (?q <? ?r)] =>
        destruct (Z.leb_spec p q), (Z.ltb_spec q r)
    end; cbn; try reflexivity; lia.
Qed.

(** X11.  A stored card scanned in admin mode is removed: the first slot that
    holds it becomes the null entry (seven bytes 0xFF), every cell outside
    that slot, the count byte included, stays as it was, and admin mode is
    off afterwards. *)
Theorem removal_nulls_slot c st k :
  _adminMode st = true ->
  presented c st <> _masterUIDEntry ->
  Lookup (rom st) (presented c st) = Some k ->
  let st' := loop (Some c) st in
  messages st' = FoundRemoved :: messages st /\
  _adminMode st' = false /\
  entryAt (rom st') (slotAddress k) = _nullUIDEntry /\
  header (rom st') = header (rom st) /\
  forall a, a < slotAddress k \/ slotAddress k + 7 <= a ->
            cells (rom st') a = cells (rom st) a.
Proof.
  intros Ha Hm Hl st'. subst st'.
  pose proof (loop_header (Some c) st) as Hh. cbv beta iota in Hh.
  apply checkUIDsMatch_false_iff in Hm as Hm'. rewrite Hm', Ha, Hl in Hh.
  destruct (loop_other_admin c st Ha Hm) as (Hadm & Hmsg & Hrom).
  rewrite Hl in Hmsg, Hrom.
  repeat split; try assumption.
  - rewrite Hrom. apply erase_entryAt.
  - intros a Hout. rewrite Hrom, eraseLoop_cells. change (Z.of_nat 7) with 7.
    destruct (Z.leb_spec (slotAddress k) a), (Z.ltb_spec a (slotAddress k + 7));
      cbn; try reflexivity; lia.
Qed.

Lemma removal_nulls_slot_witness :
  _adminMode twoSavedAdmin = true /\
  presented (Card7 cardA) twoSavedAdmin <> _masterUIDEntry /\
  Lookup (rom twoSavedAdmin) (presented (Card7 cardA) twoSavedAdmin) = Some 1 /\
  (let st' := loop (Some (Card7 cardA)) twoSavedAdmin in
   messages st' = FoundRemoved :: messages twoSavedAdmin /\
   _adminMode st' = false /\
   entryAt (rom st') (slotAddress 1) = _nullUIDEntry /\
   header (rom st') = header (rom twoSavedAdmin) /\
   forall a, a < slotAddress 1 \/ slotAddress 1 + 7 <= a ->
             cells (rom st') a = cells (rom twoSavedAdmin) a).
Proof.
  split; [by_computation | split; [differs | split; [by_computation|]]].
  apply removal_nulls_slot; [by_computation | differs | by_computation].
Defined.

(** X12.  A card stored in one slot only, and not itself the null entry, is
    removed by a scan in admin mode and denied at its next scan. *)
Theorem removed_card_is_denied c st k :
  _adminMode st = true ->
  presented c st <> _masterUIDEntry ->
  presented c st <> _nullUIDEntry ->
  Lookup (rom st) (presented c st) = Some k ->
  (forall j, 1 <= j <= header (rom st) -> j <> k ->
             entryAt (rom st) (slotAddress j) <> presented c st) ->
  messages (run [Some c; Some c] st) =
  NotFoundDenied :: FoundRemoved :: messages st.
Proof.
  intros Ha Hm Hnull Hl Huniq. cbn [run fold_left].
  pose proof (loop_header (Some c) st) as Hh. cbv beta iota in Hh.
  apply checkUIDsMatch_false_iff in Hm as Hm'. rewrite Hm', Ha, Hl in Hh.
  destruct (loop_other_admin c st Ha Hm) as (Hadm & Hmsg & Hrom).
  rewrite Hl in Hmsg, Hrom.
  pose proof (Lookup_Some _ _ _ Hl) as (Hk & _ & _).
  set (st' := loop (Some c) st) in *.
  assert (Hp : presented c st' = presented c st) by apply presented_again.
  assert (Hnone : Lookup (rom st') (presented c st') = None).
  { apply Lookup_None. rewrite Hh, Hp. intros j Hj. rewrite Hrom.
    destruct (Z.eq_dec j k) as [->|Hne].
    - rewrite erase_entryAt. intros E. apply Hnull. rewrite <- E. reflexivity.
    - rewrite erase_entryAt_other by (unfold slotAddress; lia).
      now apply Huniq. }
  destruct (loop_other_normal c st' Hadm) as (_ & _ & ->); [congruence|].
  rewrite Hnone, Hh, Hmsg.
  destruct (Z.ltb_spec 0 (header (rom st))); [reflexivity | lia].
Qed.

Lemma removed_card_is_denied_witness :
  _adminMode twoSavedAdmin = true /\
  presented (Card7 cardA) twoSavedAdmin <> _masterUIDEntry /\
  presented (Card7 cardA) twoSavedAdmin <> _nullUIDEntry /\
  Lookup (rom twoSavedAdmin) (presented (Card7 cardA) twoSavedAdmin) = Some 1 /\
  (forall j, 1 <= j <= header (rom twoSavedAdmin) -> j <> 1 ->
             entryAt (rom twoSavedAdmin) (slotAddress j) <>
             presented (Card7 cardA) twoSavedAdmin) /\
  messages (run [Some (Card7 cardA); Some (Card7 cardA)] twoSavedAdmin) =
  NotFoundDenied :: FoundRemoved :: messages twoSavedAdmin.
Proof.
  assert (Hh : header (rom twoSavedAdmin) = 2) by by_computation.
  assert (Hu : forall j, 1 <= j <= header (rom twoSavedAdmin) -> j <> 1 ->
                         entryAt (rom twoSavedAdmin) (slotAddress j) <>
                         presented (Card7 cardA) twoSavedAdmin).
  { intros j Hj Hne. assert (j = 2) as -> by lia. differs. }
  split; [by_computation | split; [differs | split; [differs | split; [by_computation|]]]].
  split; [exact Hu|].
  apply (removed_card_is_denied (Card7 cardA) twoSavedAdmin 1); [by_computation | differs | differs | by_computation | exact Hu].
Defined.

(** ** Saving a card *)

Lemma append_rom c st :
  _adminMode st = true ->
  presented c st <> _masterUIDEntry ->
  Lookup (rom st) (presented c st) = None ->
  firstNull (rom st) = None ->
  header (rom st) < 145 ->
  rom (loop (Some c) st) =
  EEPROM.write (storeUID (header (rom st) * 7 + 1) (presented c st) (rom st))
               0 (byte.of_Z (header (rom st) + 1)).
Proof.
  intros Ha Hm Hl Hn Hh.
  destruct (loop_other_admin c st Ha Hm) as (_ & _ & ->). rewrite Hl, Hn.
  destruct (Z.ltb_spec (header (rom st)) 145); [reflexivity | lia].
Qed.

(** X13.  A card that is not stored, scanned in admin mode when no slot among
    1..count is nulled and the count is below 145, is appended: slot count+1
    receives its seven bytes, the count byte is raised by one, no other cell
    changes, and the lookup that follows returns the new slot. *)
Theorem append_round_trip c st :
  _adminMode st = true ->
  presented c st <> _masterUIDEntry ->
  Lookup (rom st) (presented c st) = None ->
  firstNull (rom st) = None ->
  header (rom st) < 145 ->
  let st' := loop (Some c) st in
  let slot := header (rom st) + 1 in
  entryAt (rom st') (slotAddress slot) = presented c st /\
  header (rom st') = slot /\
  Lookup (rom st') (presented c st) = Some slot /\
  forall a, 0 < a < slotAddress slot \/ slotAddress slot + 7 <= a ->
            cells (rom st') a = cells (rom st) a.
Proof.
  intros Ha Hm Hl Hn Hh st' slot.
  destruct (appended_card_found c st Ha Hm Hl Hn Hh) as (H1 & H2 & H3).
  repeat split; try assumption.
  intros a Hout. subst st'. rewrite (append_rom c st Ha Hm Hl Hn Hh).
  pose proof (header_bounds (rom st)) as Hb.
  unfold EEPROM.write; cbn [cells]. subst slot. unfold slotAddress in Hout.
  destruct (Z.eqb_spec a 0); [lia|].
  apply storeUID_cells_out. lia.
Qed.

Lemma append_round_trip_witness :
  _adminMode oneSavedAdmin = true /\
  presented (Card7 cardB) oneSavedAdmin <> _masterUIDEntry /\
  Lookup (rom oneSavedAdmin) (presented (Card7 cardB) oneSavedAdmin) = None /\
  firstNull (rom oneSavedAdmin) = None /\
  header (rom oneSavedAdmin) < 145 /\
  (let st' := loop (Some (Card7 cardB)) oneSavedAdmin in
   let slot := header (rom oneSavedAdmin) + 1 in
   entryAt (rom st') (slotAddress slot) = presented (Card7 cardB) oneSavedAdmin /\
   header (rom st') = slot /\
   Lookup (rom st') (presented (Card7 cardB) oneSavedAdmin) = Some slot /\
   forall a, 0 < a < slotAddress slot \/ slotAddress slot + 7 <= a ->
             cells (rom st') a = cells (rom oneSavedAdmin) a).
Proof.
  assert (H : header (rom oneSavedAdmin) < 145) by (apply Z.ltb_lt; by_computation).
  do 5 (split; [first [exact H | by_computation | differs]|]).
  apply append_round_trip; first [exact H | by_computation | differs].
Defined.

(** X14.  Appending a card does not disturb the others: every identifier the
    lookup found before is found afterwards in the same slot. *)
Theorem append_keeps_lookups c st id k :
  _adminMode st = true ->
  presented c st <> _masterUIDEntry ->
  Lookup (rom st) (presented c st) = None ->
  firstNull (rom st) = None ->
  header (rom st) < 145 ->
  Lookup (rom st) id = Some k ->
  Lookup (rom (loop (Some c) st)) id = Some k.
Proof.
  intros Ha Hm Hl Hn Hh Hk.
  destruct (appended_card_found c st Ha Hm Hl Hn Hh) as (_ & H2 & _).
  pose proof (Lookup_Some _ _ _ Hk) as (Hb & _ & _).
  apply (Lookup_stable (rom st)); [assumption | lia |].
  intros j Hj. rewrite (append_rom c st Ha Hm Hl Hn Hh).
  unfold slotAddress. rewrite entryAt_write_header by lia.
  apply storeUID_entryAt_other. lia.
Qed.

Lemma append_keeps_lookups_witness :
  _adminMode oneSavedAdmin = true /\
  presented (Card7 cardB) oneSavedAdmin <> _masterUIDEntry /\
  Lookup (rom oneSavedAdmin) (presented (Card7 cardB) oneSavedAdmin) = None /\
  firstNull (rom oneSavedAdmin) = None /\
  header (rom oneSavedAdmin) < 145 /\
  Lookup (rom oneSavedAdmin) cardA = Some 1 /\
  Lookup (rom (loop (Some (Card7 cardB)) oneSavedAdmin)) cardA = Some 1.
Proof.
  assert (H : header (rom oneSavedAdmin) < 145) by (apply Z.ltb_lt; by_computation).
  do 6 (split; [first [exact H | by_computation | differs]|]).
  apply append_keeps_lookups; first [exact H | by_computation | differs].
Defined.

(** X15.  A card appended in admin mode unlocks the door at its next scan. *)
Theorem saved_card_unlocks c st :
  _adminMode st = true ->
  presented c st <> _masterUIDEntry ->
  Lookup (rom st) (presented c st) = None ->
  firstNull (rom st) = None ->
  header (rom st) < 145 ->
  messages (run [Some c; Some c] st) = FoundUnlock :: CardSaved :: messages st.
Proof.
  intros Ha Hm Hl Hn Hh. cbn [run fold_left].
  destruct (appended_card_found c st Ha Hm Hl Hn Hh) as (_ & _ & Hfound).
  destruct (loop_other_admin c st Ha Hm) as (Hadm & Hmsg & _).
  rewrite Hl, Hn in Hmsg.
  set (st' := loop (Some c) st) in *.
  assert (Hp : presented c st' = presented c st) by apply presented_again.
  destruct (loop_other_normal c st' Hadm) as (_ & _ & ->); [congruence|].
  rewrite Hp, Hfound, Hmsg.
  destruct (Z.ltb_spec (header (rom st)) 145); [reflexivity | lia].
Qed.

Lemma saved_card_unlocks_witness :
  _adminMode oneSavedAdmin = true /\
  presented (Card7 cardB) oneSavedAdmin <> _masterUIDEntry /\
  Lookup (rom oneSavedAdmin) (presented (Card7 cardB) oneSavedAdmin) = None /\
  firstNull (rom oneSavedAdmin) = None /\
  header (rom oneSavedAdmin) < 145 /\
  messages (run [Some (Card7 cardB); Some (Card7 cardB)] oneSavedAdmin) =
  FoundUnlock :: CardSaved :: messages oneSavedAdmin.
Proof.
  assert (H : header (rom oneSavedAdmin) < 145) by (apply Z.ltb_lt; by_computation).
  do 5 (split; [first [exact H | by_computation | differs]|]).
  apply saved_card_unlocks; first [exact H | by_computation | differs].
Defined.

(** X16.  When a card that is not stored is scanned in admin mode and slot k
    is the lowest nulled slot among 1..count, the seven bytes are written to
    the cells from k*7+1 on, that is into slot k+1; slot k stays nulled, and
    the count byte and every cell outside slot k+1 stay as they were. *)
Theorem recycling_writes_slot_after c st k :
  _adminMode st = true ->
  presented c st <> _masterUIDEntry ->
  Lookup (rom st) (presented c st) = None ->
  firstNull (rom st) = Some k ->
  let st' := loop (Some c) st in
  messages st' = CardSaved :: messages st /\
  entryAt (rom st') (slotAddress (k + 1)) = presented c st /\
  entryAt (rom st') (slotAddress k) = _nullUIDEntry /\
  header (rom st') = header (rom st) /\
  forall a, a < slotAddress (k + 1) \/ slotAddress (k + 1) + 7 <= a ->
            cells (rom st') a = cells (rom st) a.
Proof.
  intros Ha Hm Hl Hn st'. subst st'.
  destruct (loop_other_admin c st Ha Hm) as (_ & Hmsg & _). rewrite Hl, Hn in Hmsg.
  rewrite (recycle_writes_following_slot c st k Ha Hm Hl Hn).
  pose proof Hn as Hk. unfold firstNull in Hk.
  apply findEntry_Some in Hk as (Hk & Hnull & _). rewrite slotAddress_eq in Hnull.
  repeat split.
  - exact Hmsg.
  - apply storeUID_entryAt.
  - rewrite storeUID_entryAt_other by (unfold slotAddress; lia). exact Hnull.
  - apply header_storeUID. unfold slotAddress. lia.
  - intros a Hout. now apply storeUID_cells_out.
Qed.

Lemma recycling_writes_slot_after_witness :
  _adminMode onceRemoved = true /\
  presented (Card7 cardB) onceRemoved <> _masterUIDEntry /\
  Lookup (rom onceRemoved) (presented (Card7 cardB) onceRemoved) = None /\
  firstNull (rom onceRemoved) = Some 1 /\
  (let st' := loop (Some (Card7 cardB)) onceRemoved in
   messages st' = CardSaved :: messages onceRemoved /\
   entryAt (rom st') (slotAddress (1 + 1)) = presented (Card7 cardB) onceRemoved /\
   entryAt (rom st') (slotAddress 1) = _nullUIDEntry /\
   header (rom st') = header (rom onceRemoved) /\
   forall a, a < slotAddress (1 + 1) \/ slotAddress (1 + 1) + 7 <= a ->
             cells (rom st') a = cells (rom onceRemoved) a).
Proof.
  do 4 (split; [first [by_computation | differs]|]).
  apply recycling_writes_slot_after; first [by_computation | differs].
Defined.

(** ** Clearing, and passes that change nothing *)

(** X17.  The master card scanned while admin mode is on clears the database:
    cell 0 becomes 0, the cells 1..6 become 0xFF, each cell i from 7 to 1023
    receives the byte the sketch reads at [_nullUIDEntry[i]] past the end of
    the array, cells beyond 1023 are not addressed, and admin mode is off
    afterwards. *)
Theorem clearing_cells c st a :
  _adminMode st = true ->
  presented c st = _masterUIDEntry ->
  _adminMode (loop (Some c) st) = false /\
  messages (loop (Some c) st) = MasterClear :: messages st /\
  cells (rom (loop (Some c) st)) a =
  if a =? 0 then byte.of_Z 0
  else if (1 <=? a) && (a <? 7) then byte.of_Z 255
  else if (7 <=? a) && (a <? 1024) then past_null st a
  else cells (rom st) a.
Proof.
  intros Ha Hm. destruct (master_admin c st Ha Hm) as (H1 & H2 & H3).
  repeat split; try assumption.
  rewrite H3. unfold nullUIDEntry_at.
  destruct (Z.eqb_spec a 0), (Z.leb_spec 1 a), (Z.ltb_spec a 1024),
    (Z.ltb_spec a 7), (Z.leb_spec 7 a); cbn [andb]; try reflexivity; try lia.
  assert (a = 1 \/ a = 2 \/ a = 3 \/ a = 4 \/ a = 5 \/ a = 6) as Hcases by lia.
  destruct Hcases as [->|[->|[->|[->|[->| ->]]]]]; reflexivity.
Qed.

Lemma clearing_cells_witness :
  _adminMode oneSavedAdmin = true /\
  presented (Card7 _masterUIDEntry) oneSavedAdmin = _masterUIDEntry /\
  (_adminMode (loop (Some (Card7 _masterUIDEntry)) oneSavedAdmin) = false /\
   messages (loop (Some (Card7 _masterUIDEntry)) oneSavedAdmin) =
   MasterClear :: messages oneSavedAdmin /\
   cells (rom (loop (Some (Card7 _masterUIDEntry)) oneSavedAdmin)) 3 =
   if 3 =? 0 then byte.of_Z 0
   else if (1 <=? 3) && (3 <? 7) then byte.of_Z 255
   else if (7 <=? 3) && (3 <? 1024) then past_null oneSavedAdmin 3
   else cells (rom oneSavedAdmin) 3).
Proof.
  split; [by_computation | split; [reflexivity|]].
  apply clearing_cells; [by_computation | reflexivity].
Defined.

Lemma notMaster_presented c st :
  notMaster (Some c) -> presented c st <> _masterUIDEntry.
Proof.
  destruct c as [c0 c1 c2 c3|u]; cbn [notMaster]; [|auto].
  rewrite presented_Card4. intros H E. apply H.
  rewrite <- E. reflexivity.
Qed.

(** X18.  Without the master card nothing changes the store: from admin mode
    off, any number of passes in which the reader reports no card, a 7-byte
    UID other than the master entry, or a 4-byte UID other than the first
    four master bytes, leaves the EEPROM exactly as it was and admin mode
    off. *)
Theorem no_master_no_change targets st :
  _adminMode st = false ->
  Forall notMaster targets ->
  rom (run targets st) = rom st /\ _adminMode (run targets st) = false.
Proof.
  revert st. induction targets as [|t ts IH]; intros st Ha Hall; [now split|].
  change (run (t :: ts) st) with (run ts (loop t st)).
  inversion Hall as [|? ? Ht Hts]; subst.
  assert (H : rom (loop t st) = rom st /\ _adminMode (loop t st) = false).
  { destruct t as [c|].
    - destruct (loop_other_normal c st Ha (notMaster_presented c st Ht))
        as (H1 & H2 & _). now split.
    - unfold loop. rewrite Ha. cbn. now split. }
  destruct H as [Hr Ha']. destruct (IH (loop t st) Ha' Hts) as [H1 H2].
  split; congruence.
Qed.

Lemma no_master_no_change_witness :
  _adminMode oneSaved = false /\
  Forall notMaster
         [Some (Card7 cardA); None;
          Some (Card4 (byte.of_Z 9) (byte.of_Z 9) (byte.of_Z 9) (byte.of_Z 9));
          Some (Card7 cardB)] /\
  (rom (run [Some (Card7 cardA); None;
             Some (Card4 (byte.of_Z 9) (byte.of_Z 9) (byte.of_Z 9) (byte.of_Z 9));
             Some (Card7 cardB)] oneSaved) = rom oneSaved /\
   _adminMode (run [Some (Card7 cardA); None;
                    Some (Card4 (byte.of_Z 9) (byte.of_Z 9) (byte.of_Z 9) (byte.of_Z 9));
                    Some (Card7 cardB)] oneSaved) = false).
Proof.
  assert (H : Forall notMaster
                [Some (Card7 cardA); None;
                 Some (Card4 (byte.of_Z 9) (byte.of_Z 9) (byte.of_Z 9) (byte.of_Z 9));
                 Some (Card7 cardB)]).
  { repeat constructor; cbn [notMaster]; try differs.
    intros E. vm_compute in E. discriminate E. }
  split; [by_computation | split; [exact H|]].
  apply no_master_no_change; [by_computation | exact H].
Defined.

(** ** Short UIDs *)

Lemma run_noLongCard targets : forall st,
  Forall noLongCard targets ->
  u4 (_scannedUIDBuffer (run targets st)) = u4 (_scannedUIDBuffer st) /\
  u5 (_scannedUIDBuffer (run targets st)) = u5 (_scannedUIDBuffer st) /\
  u6 (_scannedUIDBuffer (run targets st)) = u6 (_scannedUIDBuffer st).
Proof.
  induction targets as [|t ts IH]; intros st Hall; [now repeat split|].
  change (run (t :: ts) st) with (run ts (loop t st)).
  inversion Hall as [|? ? Ht Hts]; subst.
  destruct (IH (loop t st) Hts) as (-> & -> & ->).
  rewrite loop_buffer.
  destruct t as [[c0 c1 c2 c3|u]|]; cbn [noLongCard] in Ht;
    [rewrite presented_Card4; now repeat split | destruct Ht | now repeat split].
Qed.

(** X19.  As long as the reader has reported only 4-byte UIDs (or no card)
    since [setup], the identifier the sketch works with for a 4-byte UID is
    that UID followed by three zero bytes. *)
Theorem short_cards_zero_padded versionData st st0 targets c0 c1 c2 c3 :
  setup versionData st = Some st0 ->
  Forall noLongCard targets ->
  presented (Card4 c0 c1 c2 c3) (run targets st0) =
  UID c0 c1 c2 c3 (byte.of_Z 0) (byte.of_Z 0) (byte.of_Z 0).
Proof.
  intros Hs Hall. rewrite presented_Card4.
  destruct (run_noLongCard targets st0 Hall) as (-> & -> & ->).
  unfold setup in Hs. destruct (versionData =? 0); [discriminate|].
  match type of Hs with Some ?s = _ => replace st0 with s by congruence end.
  cbn [for_ _scannedUIDBuffer set_scanned set_read uid_set u4 u5 u6
       Z.add Pos.add Pos.succ].
  reflexivity.
Qed.

Lemma short_cards_zero_padded_witness :
  setup 1 (powerOn blankStore (fun _ => byte.of_Z 0)) = Some booted /\
  Forall noLongCard
         [Some (Card4 (byte.of_Z 1) (byte.of_Z 2) (byte.of_Z 3) (byte.of_Z 4)); None] /\
  presented (Card4 (byte.of_Z 9) (byte.of_Z 9) (byte.of_Z 9) (byte.of_Z 9))
            (run [Some (Card4 (byte.of_Z 1) (byte.of_Z 2) (byte.of_Z 3) (byte.of_Z 4));
                  None] booted) =
  UID (byte.of_Z 9) (byte.of_Z 9) (byte.of_Z 9) (byte.of_Z 9)
      (byte.of_Z 0) (byte.of_Z 0) (byte.of_Z 0).
Proof.
  assert (H : Forall noLongCard
                [Some (Card4 (byte.of_Z 1) (byte.of_Z 2) (byte.of_Z 3) (byte.of_Z 4));
                 None]) by (repeat constructor).
  split; [reflexivity | split; [exact H|]].
  apply (short_cards_zero_padded 1 (powerOn blankStore (fun _ => byte.of_Z 0)));
    [reflexivity | exact H].
Defined.

(** ** The indicator *)

(** X20.  The seven colours of [setLEDMode] are told apart by their pin
    levels: a mode from 1 to 7 shares its three levels with no other mode, be
    it another colour, mode 0 or a mode the switch does not list (which all
    switch the three LEDs off). *)
Theorem led_levels_tell_modes_apart m n :
  1 <= m <= 7 -> ledLevels m = ledLevels n -> m = n.
Proof.
  intros Hm.
  assert (Hc : m = 1 \/ m = 2 \/ m = 3 \/ m = 4 \/ m = 5 \/ m = 6 \/ m = 7) by lia.
  destruct n as [|[[[p|p|]|[p|p|]|]|[[p|p|]|[p|p|]|]|]|p];
    destruct Hc as [->|[->|[->|[->|[->|[->| ->]]]]]];
    cbn; intros E; try reflexivity; discriminate E.
Qed.

Lemma led_levels_tell_modes_apart_witness :
  1 <= 4 <= 7 /\ ledLevels 4 = ledLevels 4 /\ 4 = 4.
Proof.
  split; [lia | split; [reflexivity|]].
  apply (led_levels_tell_modes_apart 4 4); [lia | reflexivity].
Defined.

(** ** Start-up *)


(** ** The null entry as a card *)

(** X22.  Once a card has been removed, a card whose UID is seven bytes 0xFF
    matches the nulled slot: scanned right after the removal, with admin mode
    off again, it unlocks the door. *)
Theorem null_card_unlocks_after_removal c st k :
  _adminMode st = true ->
  presented c st <> _masterUIDEntry ->
  Lookup (rom st) (presented c st) = Some k ->
  messages (run [Some c; Some (Card7 _nullUIDEntry)] st) =
  FoundUnlock :: FoundRemoved :: messages st.
Proof.
  intros Ha Hm Hl. cbn [run fold_left].
  pose proof (loop_header (Some c) st) as Hh. cbv beta iota in Hh.
  apply checkUIDsMatch_false_iff in Hm as Hm'. rewrite Hm', Ha, Hl in Hh.
  destruct (loop_other_admin c st Ha Hm) as (Hadm & Hmsg & Hrom).
  rewrite Hl in Hmsg, Hrom.
  pose proof (Lookup_Some _ _ _ Hl) as (Hk & _ & _).
  set (st' := loop (Some c) st) in *.
  assert (Hnm : presented (Card7 _nullUIDEntry) st' <> _masterUIDEntry) by differs.
  destruct (loop_other_normal (Card7 _nullUIDEntry) st' Hadm Hnm) as (_ & _ & ->).
  change (presented (Card7 _nullUIDEntry) st') with _nullUIDEntry.
  destruct (Lookup (rom st') _nullUIDEntry) eqn:En; [now rewrite Hmsg|].
  exfalso. apply (proj1 (Lookup_None _ _) En k); [lia|].
  rewrite Hrom. apply erase_entryAt.
Qed.

Lemma null_card_unlocks_after_removal_witness :
  _adminMode twoSavedAdmin = true /\
  presented (Card7 cardA) twoSavedAdmin <> _masterUIDEntry /\
  Lookup (rom twoSavedAdmin) (presented (Card7 cardA) twoSavedAdmin) = Some 1 /\
  messages (run [Some (Card7 cardA); Some (Card7 _nullUIDEntry)] twoSavedAdmin) =
  FoundUnlock :: FoundRemoved :: messages twoSavedAdmin.
Proof.
  split; [by_computation | split; [differs | split; [by_computation|]]].
  apply (null_card_unlocks_after_removal (Card7 cardA) twoSavedAdmin 1);
    [by_computation | differs | by_computation].
Defined.
